(** * cps-simple-protocol: counter-and-HMAC remote attestation over a UART

    A shallow embedding of [microvisor.c], [prover.c] and [verifier.c].

    - Buffers ([uint8_t x[N]]) are [list byte]; [uint32_t] counters are [Z]
      with the wrap-around of [C_V++] written out.
    - [memcpy] of a [uint32_t] copies its object representation; the model
      fixes the little-endian hosts the programs run on.
    - The UART is a pair of byte streams; a [safe_uart_read] that is never
      served enough bytes spins forever, which the model records as [Block].
    - The two [while (1)] loops are iterated a given number of times.
    - OpenSSL's [HMAC(EVP_sha256(), ...)] is HMAC-SHA-256 (FIPS 180-4,
      RFC 2104), written out below and checked against published vectors.
    - [perror] lines are part of the model; [printf] output is not, and
      the text [hex_dump] prints is given on its own in [MicrovisorLog]. *)

From Stdlib Require Import ZArith List Bool Lia String Ascii.
From Stdlib Require Import Init.Byte Strings.Byte.
Import ListNotations.
Local Open Scope Z_scope.

(* ------------------------------------------------------------------ *)
(** ** Bytes and fixed-width integers *)

Module Bytes.

Definition byte_to_Z (b : byte) : Z := Z.of_N (Byte.to_N b).

Definition byte_of_Z (z : Z) : byte :=
  match Byte.of_N (Z.to_N (z mod 256)) with
  | Some b => b
  | None => x00
  end.

(** Object representation of a [uint32_t] on a little-endian host:
    what [memcpy(dst, &x, 4)] and a 4-byte write from [&x] produce. *)
Definition uint32_bytes (x : Z) : list byte :=
  [ byte_of_Z x; byte_of_Z (x / 2^8); byte_of_Z (x / 2^16); byte_of_Z (x / 2^24) ].

(** The [uint32_t] whose storage holds the given bytes (a 4-byte read into
    [&x]); positions past the fourth do not belong to the object. *)
Definition uint32_of_bytes (bs : list byte) : Z :=
  match bs with
  | b0 :: b1 :: b2 :: b3 :: _ =>
      byte_to_Z b0 + 2^8 * byte_to_Z b1 + 2^16 * byte_to_Z b2 + 2^24 * byte_to_Z b3
  | _ => 0
  end.

(** Big-endian words, as SHA-256 reads and writes them. *)
Definition be32 (x : Z) : list byte :=
  [ byte_of_Z (x / 2^24); byte_of_Z (x / 2^16); byte_of_Z (x / 2^8); byte_of_Z x ].

Definition be32_value (b0 b1 b2 b3 : byte) : Z :=
  2^24 * byte_to_Z b0 + 2^16 * byte_to_Z b1 + 2^8 * byte_to_Z b2 + byte_to_Z b3.

Definition bytes_of_string (s : string) : list byte :=
  map byte_of_ascii (list_ascii_of_string s).

(** Reading hexadecimal test vectors. *)
Definition hex_digit (c : ascii) : Z :=
  let n := Z.of_nat (nat_of_ascii c) in
  if (48 <=? n) && (n <=? 57) then n - 48
  else if (97 <=? n) && (n <=? 102) then n - 87
  else if (65 <=? n) && (n <=? 70) then n - 55
  else 0.

Fixpoint hex (s : string) : list byte :=
  match s with
  | String hi (String lo rest) => byte_of_Z (16 * hex_digit hi + hex_digit lo) :: hex rest
  | _ => []
  end.

End Bytes.
Import Bytes.

(* ------------------------------------------------------------------ *)
(** ** HMAC-SHA-256, the primitive behind [HMAC(EVP_sha256(), ...)] *)

Module SHA256.

Definition wrap32 (x : Z) : Z := x mod 2^32.
Definition add32 (x y : Z) : Z := wrap32 (x + y).
Definition ROTR (n x : Z) : Z := Z.lor (Z.shiftr x n) (wrap32 (Z.shiftl x (32 - n))).
Definition SHR (n x : Z) : Z := Z.shiftr x n.
Definition not32 (x : Z) : Z := Z.lxor x (2^32 - 1).

Definition Ch (x y z : Z) : Z := Z.lxor (Z.land x y) (Z.land (not32 x) z).
Definition Maj (x y z : Z) : Z := Z.lxor (Z.lxor (Z.land x y) (Z.land x z)) (Z.land y z).
Definition bsig0 (x : Z) : Z := Z.lxor (Z.lxor (ROTR 2 x) (ROTR 13 x)) (ROTR 22 x).
Definition bsig1 (x : Z) : Z := Z.lxor (Z.lxor (ROTR 6 x) (ROTR 11 x)) (ROTR 25 x).
Definition ssig0 (x : Z) : Z := Z.lxor (Z.lxor (ROTR 7 x) (ROTR 18 x)) (SHR 3 x).
Definition ssig1 (x : Z) : Z := Z.lxor (Z.lxor (ROTR 17 x) (ROTR 19 x)) (SHR 10 x).

(** The round constants and the initial hash value are the leading 32
    fractional bits of the cube roots, respectively square roots, of the
    first primes; they are computed here rather than tabulated. *)
Definition is_prime (n : nat) : bool :=
  forallb (fun d => negb (Nat.eqb (Nat.modulo n d) 0)) (seq 2 (n - 2)).

Definition primes64 : list Z :=
  Eval vm_compute in map Z.of_nat (filter is_prime (seq 2 310)).

(** Largest [r < 2^bits] with [r^3 <= n]. *)
Fixpoint icbrt (bits : nat) (n r : Z) : Z :=
  match bits with
  | O => r
  | S b =>
      let r' := r + 2 ^ Z.of_nat b in
      icbrt b n (if r' * r' * r' <=? n then r' else r)
  end.

Definition K256 : list Z :=
  Eval vm_compute in map (fun p => wrap32 (icbrt 36 (p * 2^96) 0)) primes64.

Definition H256 : list Z :=
  Eval vm_compute in map (fun p => wrap32 (Z.sqrt (p * 2^64))) (firstn 8 primes64).

Record regs := Regs { ra : Z; rb : Z; rc : Z; rd : Z; re : Z; rf : Z; rg : Z; rh : Z }.

Definition regs_of_list (l : list Z) : regs :=
  Regs (nth 0 l 0) (nth 1 l 0) (nth 2 l 0) (nth 3 l 0)
       (nth 4 l 0) (nth 5 l 0) (nth 6 l 0) (nth 7 l 0).

Definition round (s : regs) (kw : Z * Z) : regs :=
  let t1 := add32 (add32 (add32 (add32 (rh s) (bsig1 (re s))) (Ch (re s) (rf s) (rg s))) (fst kw)) (snd kw) in
  let t2 := add32 (bsig0 (ra s)) (Maj (ra s) (rb s) (rc s)) in
  Regs (add32 t1 t2) (ra s) (rb s) (rc s) (add32 (rd s) t1) (re s) (rf s) (rg s).

Fixpoint words (bs : list byte) : list Z :=
  match bs with
  | b0 :: b1 :: b2 :: b3 :: rest => be32_value b0 b1 b2 b3 :: words rest
  | _ => []
  end.

(** Message schedule: [w] holds W_0 .. W_(t-1); [n] more words are added. *)
Fixpoint schedule (n : nat) (w : list Z) : list Z :=
  match n with
  | O => w
  | S n' =>
      let t := List.length w in
      let at_ k := nth (t - k) w 0 in
      schedule n' (w ++ [add32 (add32 (add32 (ssig1 (at_ 2%nat)) (at_ 7%nat)) (ssig0 (at_ 15%nat))) (at_ 16%nat)])
  end.

Definition compress (s : regs) (block : list byte) : regs :=
  let s' := fold_left round (combine K256 (schedule 48 (words block))) s in
  Regs (add32 (ra s) (ra s')) (add32 (rb s) (rb s')) (add32 (rc s) (rc s')) (add32 (rd s) (rd s'))
       (add32 (re s) (re s')) (add32 (rf s) (rf s')) (add32 (rg s) (rg s')) (add32 (rh s) (rh s')).

Definition pad (msg : list byte) : list byte :=
  let len := Z.of_nat (List.length msg) in
  msg ++ x80 :: repeat x00 (Z.to_nat ((55 - len) mod 64))
      ++ be32 ((8 * len) / 2^32) ++ be32 (8 * len).

Fixpoint absorb (fuel : nat) (s : regs) (bs : list byte) : regs :=
  match fuel, bs with
  | S fuel', _ :: _ => absorb fuel' (compress s (firstn 64 bs)) (skipn 64 bs)
  | _, _ => s
  end.

Definition sha256 (msg : list byte) : list byte :=
  let p := pad msg in
  let s := absorb (List.length p) (regs_of_list H256) p in
  be32 (ra s) ++ be32 (rb s) ++ be32 (rc s) ++ be32 (rd s)
    ++ be32 (re s) ++ be32 (rf s) ++ be32 (rg s) ++ be32 (rh s).

Definition xor_byte (c : Z) (b : byte) : byte := byte_of_Z (Z.lxor c (byte_to_Z b)).

(** RFC 2104 with a 64-byte block: [HMAC(EVP_sha256(), key, key_len, d, n, md, &len)]
    leaves these 32 bytes in [md]. *)
Definition HMAC (key msg : list byte) : list byte :=
  let k0 := if (64 <? Z.of_nat (List.length key)) then sha256 key else key in
  let k := k0 ++ repeat x00 (64 - List.length k0) in
  sha256 (map (xor_byte 92) k ++ sha256 (map (xor_byte 54) k ++ msg)).

End SHA256.

(* ------------------------------------------------------------------ *)
(** ** C library pieces the three files share *)

Module Libc.

(** An automatic array before its first write.  Every byte of such an
    array is overwritten before it is read in the code modelled here. *)
Definition uninit (n : nat) : list byte := repeat x00 n.

(** [memcpy(dst + off, src, n)]. *)
Definition memcpy_at (dst : list byte) (off : nat) (src : list byte) (n : nat) : list byte :=
  firstn off dst ++ firstn n src ++ skipn (off + n) dst.

(** [memcmp(s1, s2, n)]: the difference of the first pair of bytes that
    differ, 0 when the first [n] bytes agree.  Buffers shorter than [n]
    are outside the C function's domain; the model answers non-zero
    there, so that 0 always means [n] equal bytes were compared. *)
Fixpoint memcmp (s1 s2 : list byte) (n : nat) {struct n} : Z :=
  match n with
  | O => 0
  | S n' =>
      match s1, s2 with
      | a :: s1', b :: s2' =>
          if Byte.eqb a b then memcmp s1' s2' n' else byte_to_Z a - byte_to_Z b
      | _, _ => 1
      end
  end.

(** [fread(buf, 1, n, fp)] on a freshly opened file with the given
    contents: a short file leaves the tail of [buf] as it was. *)
Definition fread (buf : list byte) (n : nat) (contents : list byte) : list byte :=
  let got := firstn n contents in
  got ++ skipn (List.length got) buf.

(** The files a process can open: [None] is an [fopen] that fails. *)
Definition FileSystem := string -> option (list byte).

End Libc.
Import Libc.

(* ------------------------------------------------------------------ *)
(** ** A state monad for code that can block on the UART forever *)

Module Blocking.

Inductive Outcome (S A : Type) : Type :=
| Ret (a : A) (s : S)
| Block (s : S).
Arguments Ret {S A} a s.
Arguments Block {S A} s.

Definition M (S A : Type) : Type := S -> Outcome S A.

Definition ret {S A} (a : A) : M S A := fun s => Ret a s.

Definition bind {S A B} (m : M S A) (f : A -> M S B) : M S B :=
  fun s => match m s with
           | Ret a s' => f a s'
           | Block s' => Block s'
           end.

Definition get {S} : M S S := fun s => Ret s s.
Definition modify {S} (f : S -> S) : M S unit := fun s => Ret tt (f s).

Definition state_of {S A} (o : Outcome S A) : S :=
  match o with Ret _ s => s | Block s => s end.

Definition blocked {S A} (o : Outcome S A) : bool :=
  match o with Ret _ _ => false | Block _ => true end.

(** [n] turns of a [while (1)] loop; a turn that blocks is the last one. *)
Fixpoint iterate {S} (n : nat) (body : M S unit) : M S unit :=
  match n with
  | O => ret tt
  | S n' => bind body (fun _ => iterate n' body)
  end.

End Blocking.
Import Blocking.

Notation "x <- c1 ;; c2" := (bind c1 (fun x => c2))
  (at level 61, c1 at next level, right associativity).
Notation "c1 ;;; c2" := (bind c1 (fun _ => c2))
  (at level 61, right associativity).

(* ------------------------------------------------------------------ *)
(** ** microvisor.c *)

Module Microvisor.

Definition KEY_SIZE : nat := 32.
Definition OUTPUT_SIZE : nat := 32.
Definition SOFTWARE_CODE : list byte := bytes_of_string "ExampleFirmwareV1".

(** The two arrays in [.secure_data]. *)
Record Keys := { Kauth : list byte; Kattest : list byte }.

(** Objects of static storage duration start zeroed. *)
Definition zero_keys : Keys :=
  {| Kauth := repeat x00 KEY_SIZE; Kattest := repeat x00 KEY_SIZE |}.

(** Returns the buffer after the call and the lines sent to [perror]. *)
Definition load_key_from_file (key : list byte) (fs : FileSystem) (filename : string)
  : list byte * list string :=
  match fs filename with
  | Some contents => (fread key KEY_SIZE contents, [])
  | None => (key, ["Error loading key"%string])
  end.

(** Returns [key_out] after the call.  [key_type] is a [uint8_t]: the
    argument is converted to it, that is, taken modulo 256. *)
Definition get_secure_key (k : Keys) (key_out : list byte) (key_type : Z) : list byte :=
  let key_type := key_type mod 2^8 in
  if key_type =? 0 then memcpy_at key_out 0 (Kauth k) KEY_SIZE
  else if key_type =? 1 then memcpy_at key_out 0 (Kattest k) KEY_SIZE
  else key_out.

Definition compute_valid_software_state (k : Keys) : list byte :=
  let key := get_secure_key k (uninit KEY_SIZE) 1 in
  SHA256.HMAC key SOFTWARE_CODE.

Definition initialize_keys (fs : FileSystem) (k : Keys) : Keys * list string :=
  let (kauth, e1) := load_key_from_file (Kauth k) fs "kauth.key" in
  let (kattest, e2) := load_key_from_file (Kattest k) fs "kattest.key" in
  ({| Kauth := kauth; Kattest := kattest |}, e1 ++ e2).

End Microvisor.
Import Microvisor.

(* ------------------------------------------------------------------ *)
(** ** prover.c *)

Module Prover.

Definition NONCE_SIZE : nat := 32.
Definition OUTPUT_SIZE : nat := 32.
Definition KEY_SIZE : nat := 32.
Definition COUNTER_SIZE : nat := 4.

(** The global [C_P] and the two directions of the serial line:
    [rx] is what the line will still deliver, [tx] what was written. *)
Record State := { C_P : Z; rx : list byte; tx : list byte }.

Definition set_C_P (v : Z) (s : State) : State :=
  {| C_P := v; rx := rx s; tx := tx s |}.

(** Returns [output] after the call. *)
Definition compute_prover_hmac (k : Keys) (C_V : Z) (nonce : list byte) (output : list byte)
  : list byte :=
  let key := get_secure_key k (uninit KEY_SIZE) 0 in
  let valid_state := compute_valid_software_state k in
  let hmac_input := uninit (COUNTER_SIZE + KEY_SIZE + NONCE_SIZE) in
  let hmac_input := memcpy_at hmac_input 0 (uint32_bytes C_V) COUNTER_SIZE in
  let hmac_input := memcpy_at hmac_input COUNTER_SIZE valid_state KEY_SIZE in
  let hmac_input := memcpy_at hmac_input (COUNTER_SIZE + KEY_SIZE) nonce NONCE_SIZE in
  memcpy_at output 0 (SHA256.HMAC key hmac_input) OUTPUT_SIZE.

(** Returns once [size] bytes have arrived; with fewer on the line it
    takes what there is and spins. *)
Definition safe_uart_read (size : nat) : M State (list byte) :=
  fun s =>
    if (size <=? List.length (rx s))%nat
    then Ret (firstn size (rx s)) {| C_P := C_P s; rx := skipn size (rx s); tx := tx s |}
    else Block {| C_P := C_P s; rx := []; tx := tx s |}.

(** The peer is taken to drain the line, so every write completes. *)
Definition safe_uart_write (buffer : list byte) (size : nat) : M State unit :=
  modify (fun s => {| C_P := C_P s; rx := rx s; tx := tx s ++ firstn size buffer |}).

(** The four reads that open a turn of the loop of [main]:
    [C_V], [valid_state], [nonce], [received_hmac]. *)
Definition read_attestation_request : M State (Z * list byte * list byte * list byte) :=
  cv <- safe_uart_read COUNTER_SIZE ;;
  valid_state <- safe_uart_read KEY_SIZE ;;
  nonce <- safe_uart_read NONCE_SIZE ;;
  received_hmac <- safe_uart_read OUTPUT_SIZE ;;
  ret (uint32_of_bytes cv, valid_state, nonce, received_hmac).

(** One turn of the [while (1)] loop of [main]. *)
Definition round (k : Keys) : M State unit :=
  request <- read_attestation_request ;;
  let '(C_V, valid_state, nonce, received_hmac) := request in
  s <- get ;;
  if C_P s >=? C_V then
    let report := repeat x00 (1 + OUTPUT_SIZE) in
    safe_uart_write report (1 + OUTPUT_SIZE)
  else
    let expected_hmac := compute_prover_hmac k C_V nonce (uninit OUTPUT_SIZE) in
    if memcmp received_hmac expected_hmac OUTPUT_SIZE =? 0 then
      modify (set_C_P C_V) ;;;
      s <- get ;;
      let report := x01 :: repeat x00 OUTPUT_SIZE in
      let report := firstn 1 report ++ compute_prover_hmac k (C_P s) nonce (skipn 1 report) in
      safe_uart_write report (1 + OUTPUT_SIZE)
    else
      ret tt.

Inductive Process : Type :=
| Exited (status : Z) (stderr : list string)
| Looping (o : Outcome State unit) (stderr : list string).

(** [main], observed after [turns] turns of its loop.  [device] is the
    serial line behind "/dev/pts/8": [None] when it cannot be opened,
    otherwise the bytes it will deliver. *)
Definition main (fs : FileSystem) (device : option (list byte)) (turns : nat) : Process :=
  let (k, err) := initialize_keys fs zero_keys in
  match device with
  | None => Exited (-1) (err ++ ["[PROVER] Failed to open UART"%string])
  | Some line =>
      Looping (iterate turns (round k) {| C_P := 0; rx := line; tx := [] |}) err
  end.

End Prover.

(* ------------------------------------------------------------------ *)
(** ** verifier.c *)

Module Verifier.

Definition NONCE_SIZE : nat := 32.
Definition OUTPUT_SIZE : nat := 32.
Definition KEY_SIZE : nat := 32.
Definition COUNTER_SIZE : nat := 4.

(** The global [C_V], the serial line, and the bytes "/dev/urandom"
    will yield to the reads still to come. *)
Record State := { C_V : Z; rx : list byte; tx : list byte; urandom : list byte }.

(** Returns [output] after the call; [C_V] is the global, read once. *)
Definition compute_verifier_hmac (k : Keys) (C_V : Z) (nonce : list byte) (output : list byte)
  : list byte :=
  let key := get_secure_key k (uninit KEY_SIZE) 0 in
  let valid_state := compute_valid_software_state k in
  let hmac_input := uninit (COUNTER_SIZE + KEY_SIZE + NONCE_SIZE) in
  let temp_CV := C_V in
  let hmac_input := memcpy_at hmac_input 0 (uint32_bytes temp_CV) COUNTER_SIZE in
  let hmac_input := memcpy_at hmac_input COUNTER_SIZE valid_state KEY_SIZE in
  let hmac_input := memcpy_at hmac_input (COUNTER_SIZE + KEY_SIZE) nonce NONCE_SIZE in
  memcpy_at output 0 (SHA256.HMAC key hmac_input) OUTPUT_SIZE.

Definition safe_uart_read (size : nat) : M State (list byte) :=
  fun s =>
    if (size <=? List.length (rx s))%nat
    then Ret (firstn size (rx s))
             {| C_V := C_V s; rx := skipn size (rx s); tx := tx s; urandom := urandom s |}
    else Block {| C_V := C_V s; rx := []; tx := tx s; urandom := urandom s |}.

Definition safe_uart_write (buffer : list byte) (size : nat) : M State unit :=
  modify (fun s => {| C_V := C_V s; rx := rx s; tx := tx s ++ firstn size buffer;
                      urandom := urandom s |}).

(** Returns [nonce] after the call. *)
Definition generate_nonce (nonce : list byte) : M State (list byte) :=
  fun s =>
    Ret (fread nonce NONCE_SIZE (urandom s))
        {| C_V := C_V s; rx := rx s; tx := tx s; urandom := skipn NONCE_SIZE (urandom s) |}.

(** [C_V++] on a [uint32_t]. *)
Definition increment_C_V : M State unit :=
  modify (fun s => {| C_V := (C_V s + 1) mod 2^32; rx := rx s; tx := tx s;
                      urandom := urandom s |}).

(** The four writes of a turn of the loop of [main]: [C_V],
    [valid_state], [nonce], [hmac]. *)
Definition send_attestation_request (k : Keys) (nonce hmac : list byte) : M State unit :=
  s <- get ;;
  safe_uart_write (uint32_bytes (C_V s)) COUNTER_SIZE ;;;
  let valid_state := compute_valid_software_state k in
  safe_uart_write valid_state KEY_SIZE ;;;
  safe_uart_write nonce NONCE_SIZE ;;;
  safe_uart_write hmac OUTPUT_SIZE.

(** One turn of the [while (1)] loop of [main]; the result is the test
    [report[0] == 1]. *)
Definition round (k : Keys) : M State bool :=
  nonce <- generate_nonce (uninit NONCE_SIZE) ;;
  increment_C_V ;;;
  s <- get ;;
  let hmac := compute_verifier_hmac k (C_V s) nonce (uninit OUTPUT_SIZE) in
  send_attestation_request k nonce hmac ;;;
  report <- safe_uart_read (1 + OUTPUT_SIZE) ;;
  ret (byte_to_Z (nth 0 report x00) =? 1).

Inductive Process : Type :=
| Exited (status : Z) (stderr : list string)
| Looping (o : Outcome State unit) (stderr : list string).

(** [main], observed after [turns] turns of its loop; [device] is the
    serial line behind "/dev/pts/7", [random] what "/dev/urandom" yields. *)
Definition main (fs : FileSystem) (device : option (list byte)) (random : list byte)
    (turns : nat) : Process :=
  let (k, err) := initialize_keys fs zero_keys in
  match device with
  | None => Exited (-1) (err ++ ["[VERIFIER] Failed to open UART"%string])
  | Some line =>
      Looping (iterate turns (round k ;;; ret tt)
                 {| C_V := 0; rx := line; tx := []; urandom := random |}) err
  end.

End Verifier.

(** Names for the values one turn of the Verifier's loop works with. *)
Module VerifierTurn.
Import Verifier.

(** The nonce of a turn that starts in [s]. *)
Definition nonce_of (s : State) : list byte :=
  fread (uninit NONCE_SIZE) NONCE_SIZE (urandom s).

(** The counter a turn that starts in [s] works with. *)
Definition counter_of (s : State) : Z := (C_V s + 1) mod 2^32.

(** The bytes a turn that starts in [s] writes. *)
Definition request_of (k : Keys) (s : State) : list byte :=
  uint32_bytes (counter_of s)
    ++ compute_valid_software_state k
    ++ nonce_of s
    ++ compute_verifier_hmac k (counter_of s) (nonce_of s) (uninit OUTPUT_SIZE).

End VerifierTurn.

(* ------------------------------------------------------------------ *)
(** ** A concrete deployment, for running the two programs *)

Module Scenario.

Definition kauth_file : list byte := map (fun i => byte_of_Z (Z.of_nat i)) (seq 1 32).
Definition kattest_file : list byte := map (fun i => byte_of_Z (Z.of_nat i)) (seq 101 32).

(** Both key files are in place. *)
Definition provisioned : FileSystem :=
  fun name =>
    if String.eqb name "kauth.key" then Some kauth_file
    else if String.eqb name "kattest.key" then Some kattest_file
    else None.

(** Neither key file exists. *)
Definition unprovisioned : FileSystem := fun _ => None.

Definition keys : Keys := fst (initialize_keys provisioned zero_keys).

(** What "/dev/urandom" yields in this run. *)
Definition random : list byte := map (fun i => byte_of_Z (Z.of_nat (7 * i + 3))) (seq 0 96).

Definition verifier_start (line : list byte) : Verifier.State :=
  {| Verifier.C_V := 0; Verifier.rx := line; Verifier.tx := []; Verifier.urandom := random |}.

Definition prover_start (line : list byte) : Prover.State :=
  {| Prover.C_P := 0; Prover.rx := line; Prover.tx := [] |}.

(** The Verifier's first request: what it has written when it waits
    for the first report. *)
Definition request1 : list byte :=
  Eval vm_compute in Verifier.tx (state_of (Verifier.round keys (verifier_start []))).

(** The Prover's answer to it. *)
Definition report1 : list byte :=
  Eval vm_compute in Prover.tx (state_of (Prover.round keys (prover_start request1))).

(** The Verifier's second request, sent once the first report is in. *)
Definition request2 : list byte :=
  Eval vm_compute in
    skipn 100 (Verifier.tx (state_of
      (iterate 2 (Verifier.round keys ;;; ret tt) (verifier_start report1)))).

(** [l] with the lowest bit of its byte [i] flipped. *)
Definition flip_bit (i : nat) (l : list byte) : list byte :=
  firstn i l ++ byte_of_Z (Z.lxor (byte_to_Z (nth i l x00)) 1) :: skipn (S i) l.

(** [request1] with one bit of the first nonce byte flipped. *)
Definition tampered1 : list byte := flip_bit 36 request1.

Definition zeros (n : nat) : list byte := repeat x00 n.

(** The request a Verifier writes when neither key file could be read. *)
Definition unkeyed_request : list byte :=
  Eval vm_compute in
    Verifier.tx (state_of
      (Verifier.round (fst (initialize_keys unprovisioned zero_keys)) (verifier_start []))).

End Scenario.

(* ------------------------------------------------------------------ *)
(** ** microvisor.c: what goes to [stdout] *)

Module MicrovisorLog.

(** One digit of [%02X]. *)
Definition hex_char (n : Z) : ascii :=
  ascii_of_nat (Z.to_nat (if n <? 10 then 48 + n else 55 + n)).

(** [printf("%02X ", b)] for a [uint8_t]. *)
Definition printf_02X (b : byte) : string :=
  String (hex_char (byte_to_Z b / 16))
    (String (hex_char (byte_to_Z b mod 16)) (String " "%char EmptyString)).

Definition newline : string := String (ascii_of_nat 10) EmptyString.

(** The text [hex_dump(label, data, len)] prints: the label, then every
    byte in turn, then the end of line. *)
Definition hex_dump (label : string) (data : list byte) (len : nat) : string :=
  (label ++ ": ")
    ++ fold_right (fun (b : byte) (out : string) => (printf_02X b ++ out)%string)
         newline (firstn len data).

(** The text the two [hex_dump] calls that end [initialize_keys] print,
    given the keys as loaded. *)
Definition initialize_keys_stdout (k : Keys) : string :=
  hex_dump "[MICROVISOR] Loaded Kauth" (Kauth k) Microvisor.KEY_SIZE
    ++ hex_dump "[MICROVISOR] Loaded Kattest" (Kattest k) Microvisor.KEY_SIZE.

(** Reading a dump back: groups of two hexadecimal digits and one more
    character, until none is left. *)
Fixpoint read_dump (s : string) : list byte :=
  match s with
  | String hi (String lo (String _ rest)) =>
      byte_of_Z (16 * hex_digit hi + hex_digit lo) :: read_dump rest
  | _ => []
  end.

End MicrovisorLog.

(* ------------------------------------------------------------------ *)
(** ** The two programs on one serial line *)

Module Line.

(** One request and its answer.  The bytes the Verifier's turn writes
    are delivered to the Prover, the Prover runs one turn, and the bytes
    that turn writes are what the Verifier's 33-byte read is served. *)
Definition exchange (kv kp : Keys) (v : Verifier.State) (p : Prover.State)
  : Outcome Verifier.State bool * Prover.State :=
  let sent :=
    skipn (List.length (Verifier.tx v)) (Verifier.tx (state_of (Verifier.round kv v))) in
  let p' :=
    state_of (Prover.round kp {| Prover.C_P := Prover.C_P p;
                                 Prover.rx := Prover.rx p ++ sent;
                                 Prover.tx := Prover.tx p |}) in
  let answered := skipn (List.length (Prover.tx p)) (Prover.tx p') in
  (Verifier.round kv {| Verifier.C_V := Verifier.C_V v;
                        Verifier.rx := Verifier.rx v ++ answered;
                        Verifier.tx := Verifier.tx v;
                        Verifier.urandom := Verifier.urandom v |},
   p').

(** [n] exchanges in a row: the results of the Verifier's tests and the
    two states reached.  An exchange the Verifier never completes is the
    last one. *)
Fixpoint session (kv kp : Keys) (n : nat) (v : Verifier.State) (p : Prover.State)
  : list bool * Verifier.State * Prover.State :=
  match n with
  | O => ([], v, p)
  | S n' =>
      match exchange kv kp v p with
      | (Ret ok v', p') =>
          let '(oks, v'', p'') := session kv kp n' v' p' in (ok :: oks, v'', p'')
      | (Block v', p') => ([], v', p')
      end
  end.

(** The Verifier's state after a turn that started in [v] with nothing
    on the line and was answered with 33 bytes. *)
Definition stepped (k : Keys) (v : Verifier.State) : Verifier.State :=
  {| Verifier.C_V := VerifierTurn.counter_of v; Verifier.rx := [];
     Verifier.tx := Verifier.tx v ++ VerifierTurn.request_of k v;
     Verifier.urandom := skipn 32 (Verifier.urandom v) |}.

(** The request the Verifier writes in its turn number [i], counting
    from 0, of a run that starts in [v]. *)
Definition nth_request (k : Keys) (v : Verifier.State) (i : nat) : list byte :=
  VerifierTurn.request_of k
    {| Verifier.C_V := Verifier.C_V v + Z.of_nat i; Verifier.rx := [];
       Verifier.tx := [];
       Verifier.urandom := skipn (32 * i) (Verifier.urandom v) |}.

End Line.

(* ------------------------------------------------------------------ *)
(** ** Published test vectors for the hash and the MAC *)

Example sha256_abc :
  SHA256.sha256 (bytes_of_string "abc")
  = hex "ba7816bf8f01cfea414140de5dae2223b00361a396177a9cb410ff61f20015ad".
Proof. vm_compute. reflexivity. Qed.

Example sha256_empty :
  SHA256.sha256 []
  = hex "e3b0c44298fc1c149afbf4c8996fb92427ae41e4649b934ca495991b7852b855".
Proof. vm_compute. reflexivity. Qed.

Example hmac_rfc4231_case2 :
  SHA256.HMAC (bytes_of_string "Jefe") (bytes_of_string "what do ya want for nothing?")
  = hex "5bdcc146bf60754e6a042426089575c75a003f089d2739839dec58b964ec3843".
Proof. vm_compute. reflexivity. Qed.

Example hmac_rfc4231_case1 :
  SHA256.HMAC (repeat x0b 20) (bytes_of_string "Hi There")
  = hex "b0344c61d8db38535ca8afceaf0bf12b881dc200c9833da726e9376c2e32cff7".
Proof. vm_compute. reflexivity. Qed.

Example hmac_rfc4231_case6 :
  SHA256.HMAC (repeat xaa 131)
    (bytes_of_string "Test Using Larger Than Block-Size Key - Hash Key First")
  = hex "60e431591ee0b67f0d8a26aacbf5b77f8e0bc6213728c5140546040f0ee37f54".
Proof. vm_compute. reflexivity. Qed.

(* ------------------------------------------------------------------ *)
(** ** Bytes, counters and buffers *)

Lemma byte_to_Z_range (b : byte) : 0 <= byte_to_Z b < 256.
Proof.
  unfold byte_to_Z. pose proof (Byte.to_N_bounded b). lia.
Qed.

Lemma byte_to_of_Z (z : Z) : byte_to_Z (byte_of_Z z) = z mod 256.
Proof.
  unfold byte_to_Z, byte_of_Z.
  assert (Hr : 0 <= z mod 256 < 256) by (apply Z.mod_pos_bound; lia).
  destruct (Byte.of_N (Z.to_N (z mod 256))) as [b|] eqn:E.
  - apply Byte.to_of_N in E. rewrite E. apply Z2N.id. lia.
  - apply Byte.of_N_None_iff in E. lia.
Qed.

Lemma byte_of_to_Z (b : byte) : byte_of_Z (byte_to_Z b) = b.
Proof.
  unfold byte_of_Z. pose proof (byte_to_Z_range b) as Hr.
  rewrite Z.mod_small by lia.
  unfold byte_to_Z. rewrite N2Z.id, Byte.of_to_N. reflexivity.
Qed.

Lemma uint32_bytes_length (x : Z) : List.length (uint32_bytes x) = 4%nat.
Proof. reflexivity. Qed.

Lemma uint32_of_bytes_range (bs : list byte) : 0 <= uint32_of_bytes bs < 2^32.
Proof.
  unfold uint32_of_bytes.
  destruct bs as [|b0 [|b1 [|b2 [|b3 rest]]]]; try lia.
  pose proof (byte_to_Z_range b0). pose proof (byte_to_Z_range b1).
  pose proof (byte_to_Z_range b2). pose proof (byte_to_Z_range b3). lia.
Qed.

(** Writing a counter to the line and reading it back gives the counter. *)
Lemma uint32_of_bytes_bytes (x : Z) (rest : list byte) :
  uint32_of_bytes (uint32_bytes x ++ rest) = x mod 2^32.
Proof.
  unfold uint32_bytes, uint32_of_bytes. cbn [app].
  rewrite !byte_to_of_Z.
  change (2^32) with (256 * (256 * (256 * 256))).
  change (2^8) with 256. change (2^16) with (256 * 256).
  change (2^24) with (256 * (256 * 256)).
  rewrite <- !Z.div_div by lia.
  rewrite !(Z.rem_mul_r _ 256) by lia.
  lia.
Qed.

Lemma uint32_bytes_of_bytes (bs : list byte) :
  List.length bs = 4%nat -> uint32_bytes (uint32_of_bytes bs) = bs.
Proof.
  destruct bs as [|b0 [|b1 [|b2 [|b3 [|]]]]]; try discriminate. intros _.
  unfold uint32_of_bytes, uint32_bytes.
  pose proof (byte_to_Z_range b0). pose proof (byte_to_Z_range b1).
  pose proof (byte_to_Z_range b2). pose proof (byte_to_Z_range b3).
  set (v := byte_to_Z b0 + 2^8 * byte_to_Z b1 + 2^16 * byte_to_Z b2 + 2^24 * byte_to_Z b3).
  assert (E0 : v mod 256 = byte_to_Z b0).
  { subst v. symmetry. apply (Z.mod_unique_pos _ _
      (byte_to_Z b1 + 2^8 * byte_to_Z b2 + 2^16 * byte_to_Z b3)); lia. }
  assert (E1 : (v / 2^8) mod 256 = byte_to_Z b1).
  { replace (v / 2^8) with (byte_to_Z b1 + 2^8 * byte_to_Z b2 + 2^16 * byte_to_Z b3).
    - symmetry. apply (Z.mod_unique_pos _ _ (byte_to_Z b2 + 2^8 * byte_to_Z b3)); lia.
    - apply (Z.div_unique_pos _ _ _ (byte_to_Z b0)); subst v; lia. }
  assert (E2 : (v / 2^16) mod 256 = byte_to_Z b2).
  { replace (v / 2^16) with (byte_to_Z b2 + 2^8 * byte_to_Z b3).
    - symmetry. apply (Z.mod_unique_pos _ _ (byte_to_Z b3)); lia.
    - apply (Z.div_unique_pos _ _ _ (byte_to_Z b0 + 2^8 * byte_to_Z b1)); subst v; lia. }
  assert (E3 : (v / 2^24) mod 256 = byte_to_Z b3).
  { replace (v / 2^24) with (byte_to_Z b3).
    - apply Z.mod_small; lia.
    - apply (Z.div_unique_pos _ _ _
        (byte_to_Z b0 + 2^8 * byte_to_Z b1 + 2^16 * byte_to_Z b2)); subst v; lia. }
  unfold byte_of_Z at 1 2 3 4.
  rewrite E0, E1, E2, E3.
  fold (byte_of_Z (byte_to_Z b0)).
  assert (F : forall b, match Byte.of_N (Z.to_N (byte_to_Z b)) with
                        | Some c => c | None => x00 end = b).
  { intro b. unfold byte_to_Z. rewrite N2Z.id, Byte.of_to_N. reflexivity. }
  rewrite !F. reflexivity.
Qed.

Lemma sha256_length (msg : list byte) : List.length (SHA256.sha256 msg) = 32%nat.
Proof. reflexivity. Qed.

Lemma HMAC_length (key msg : list byte) : List.length (SHA256.HMAC key msg) = 32%nat.
Proof. unfold SHA256.HMAC. apply sha256_length. Qed.

Lemma memcpy_at_whole (dst src : list byte) (n : nat) :
  List.length dst = n -> List.length src = n -> memcpy_at dst 0 src n = src.
Proof.
  intros Hd Hs. unfold memcpy_at. cbn [firstn app Nat.add].
  rewrite firstn_all2, skipn_all2 by lia. apply app_nil_r.
Qed.

Lemma memcpy_at_length (dst src : list byte) (off n : nat) :
  (off + n <= List.length dst)%nat -> (n <= List.length src)%nat ->
  List.length (memcpy_at dst off src n) = List.length dst.
Proof.
  intros Hd Hs. unfold memcpy_at.
  rewrite !length_app, !length_firstn, length_skipn. lia.
Qed.

Lemma memcpy_at_app (a b c src : list byte) (off n : nat) :
  off = List.length a -> List.length b = n -> List.length src = n ->
  memcpy_at (a ++ b ++ c) off src n = a ++ src ++ c.
Proof.
  intros -> Hb Hs. unfold memcpy_at.
  rewrite firstn_app, Nat.sub_diag, firstn_all, firstn_O, app_nil_r.
  rewrite (firstn_all2 (n := n) src) by lia.
  replace (skipn (List.length a + n) (a ++ b ++ c)) with c; [reflexivity|].
  rewrite (app_assoc a b c), skipn_app.
  rewrite skipn_all2 by (rewrite length_app; lia).
  rewrite length_app, Hb, Nat.sub_diag. reflexivity.
Qed.

Lemma fread_length (buf contents : list byte) (n : nat) :
  (n <= List.length buf)%nat -> List.length (fread buf n contents) = List.length buf.
Proof.
  intro Hn. unfold fread.
  rewrite length_app, length_skipn, length_firstn. lia.
Qed.

Lemma uninit_length (n : nat) : List.length (uninit n) = n.
Proof. apply repeat_length. Qed.

(* ------------------------------------------------------------------ *)
(** ** [memcmp] *)

Lemma byte_to_Z_inj (a b : byte) : byte_to_Z a = byte_to_Z b -> a = b.
Proof.
  intro H. rewrite <- (byte_of_to_Z a), <- (byte_of_to_Z b), H. reflexivity.
Qed.

Lemma byte_eqb_refl (a : byte) : Byte.eqb a a = true.
Proof. apply Byte.byte_dec_lb. reflexivity. Qed.

Lemma memcmp_refl (a : list byte) (n : nat) :
  (n <= List.length a)%nat -> memcmp a a n = 0.
Proof.
  revert a. induction n as [|n IH]; intros a Hn; [reflexivity|].
  destruct a as [|x a]; cbn [List.length] in Hn; [lia|].
  cbn [memcmp]. rewrite byte_eqb_refl. apply IH. lia.
Qed.

Lemma memcmp_zero (a b : list byte) (n : nat) :
  memcmp a b n = 0 -> firstn n a = firstn n b /\ (n <= List.length a)%nat
                      /\ (n <= List.length b)%nat.
Proof.
  revert a b. induction n as [|n IH]; intros a b H.
  - cbn. repeat split; lia.
  - destruct a as [|x a], b as [|y b]; cbn [memcmp] in H; try discriminate.
    destruct (Byte.eqb x y) eqn:E.
    + apply Byte.byte_dec_bl in E. subst y.
      destruct (IH _ _ H) as (Hf & Ha & Hb).
      cbn [firstn List.length]. rewrite Hf. repeat split; lia.
    + apply Byte.eqb_false in E. exfalso. apply E. apply byte_to_Z_inj. lia.
Qed.

(** On two full buffers [memcmp] answers 0 exactly when they are equal. *)
Lemma memcmp_zero_iff (a b : list byte) (n : nat) :
  List.length a = n -> List.length b = n -> (memcmp a b n = 0 <-> a = b).
Proof.
  intros Ha Hb. split.
  - intro H. apply memcmp_zero in H. destruct H as (Hf & _ & _).
    rewrite !firstn_all2 in Hf by lia. exact Hf.
  - intros ->. apply memcmp_refl. lia.
Qed.

(* ------------------------------------------------------------------ *)
(** ** The keyed digests of the two roles *)

Lemma get_secure_key_auth (k : Keys) (key_out : list byte) :
  get_secure_key k key_out 0 = memcpy_at key_out 0 (Kauth k) Microvisor.KEY_SIZE.
Proof. reflexivity. Qed.

Lemma compute_valid_software_state_length (k : Keys) :
  List.length (compute_valid_software_state k) = 32%nat.
Proof. unfold compute_valid_software_state. apply HMAC_length. Qed.

Lemma compute_prover_hmac_length (k : Keys) (c : Z) (nonce output : list byte) :
  List.length output = 32%nat ->
  List.length (Prover.compute_prover_hmac k c nonce output) = 32%nat.
Proof.
  intro Ho. unfold Prover.compute_prover_hmac.
  rewrite memcpy_at_whole; auto using HMAC_length.
Qed.

Lemma compute_verifier_hmac_length (k : Keys) (c : Z) (nonce output : list byte) :
  List.length output = 32%nat ->
  List.length (Verifier.compute_verifier_hmac k c nonce output) = 32%nat.
Proof.
  intro Ho. unfold Verifier.compute_verifier_hmac.
  rewrite memcpy_at_whole; auto using HMAC_length.
Qed.

(** Both roles build the same 68-byte input and key the same digest. *)
Lemma prover_verifier_hmac_agree (k : Keys) (c : Z) (nonce output : list byte) :
  Prover.compute_prover_hmac k c nonce output
  = Verifier.compute_verifier_hmac k c nonce output.
Proof. reflexivity. Qed.

(** With buffers of the declared sizes the three [memcpy] calls lay the
    input out as counter, software state, nonce. *)
Lemma compute_prover_hmac_layout (k : Keys) (c : Z) (nonce output : list byte) :
  List.length nonce = 32%nat -> List.length output = 32%nat ->
  List.length (Kauth k) = 32%nat ->
  Prover.compute_prover_hmac k c nonce output
  = SHA256.HMAC (Kauth k) (uint32_bytes c ++ compute_valid_software_state k ++ nonce).
Proof.
  intros Hn Ho Hk. unfold Prover.compute_prover_hmac.
  rewrite memcpy_at_whole by auto using HMAC_length.
  rewrite get_secure_key_auth, memcpy_at_whole by (auto using uninit_length).
  f_equal.
  pose proof (compute_valid_software_state_length k) as Hv.
  set (v := compute_valid_software_state k) in *.
  change (uninit (Prover.COUNTER_SIZE + Prover.KEY_SIZE + Prover.NONCE_SIZE))
    with ([] ++ uninit 4 ++ (uninit 32 ++ uninit 32 ++ [])).
  rewrite (memcpy_at_app [] (uninit 4)) by reflexivity.
  cbn [app].
  rewrite (memcpy_at_app (uint32_bytes c) (uninit 32)) by (reflexivity || assumption).
  rewrite app_assoc.
  rewrite (memcpy_at_app (uint32_bytes c ++ v) (uninit 32))
    by (reflexivity || assumption || (rewrite length_app, Hv; reflexivity)).
  rewrite app_nil_r, <- app_assoc. reflexivity.
Qed.

(* ------------------------------------------------------------------ *)
(** ** One turn of the Prover's loop *)

Module ProverFacts.
Import Prover.

Lemma safe_uart_read_enough (size : nat) (s : State) (a rest : list byte) :
  List.length a = size -> rx s = a ++ rest ->
  safe_uart_read size s = Ret a {| C_P := C_P s; rx := rest; tx := tx s |}.
Proof.
  intros Ha Hrx. unfold safe_uart_read. rewrite Hrx.
  replace (size <=? List.length (a ++ rest))%nat with true
    by (symmetry; apply Nat.leb_le; rewrite length_app; lia).
  rewrite firstn_app, skipn_app, Ha, Nat.sub_diag.
  rewrite firstn_all2, skipn_all2 by lia.
  cbn [firstn skipn app]. rewrite app_nil_r. reflexivity.
Qed.

Lemma safe_uart_read_starved (size : nat) (s : State) :
  (List.length (rx s) < size)%nat ->
  safe_uart_read size s = Block {| C_P := C_P s; rx := []; tx := tx s |}.
Proof.
  intro H. unfold safe_uart_read.
  replace (size <=? List.length (rx s))%nat with false
    by (symmetry; apply Nat.leb_gt; exact H).
  reflexivity.
Qed.

(** A complete request on the line is read field by field. *)
Lemma read_attestation_request_full (s : State) (cv vs nonce mac rest : list byte) :
  List.length cv = 4%nat -> List.length vs = 32%nat ->
  List.length nonce = 32%nat -> List.length mac = 32%nat ->
  rx s = cv ++ vs ++ nonce ++ mac ++ rest ->
  read_attestation_request s
  = Ret (uint32_of_bytes cv, vs, nonce, mac) {| C_P := C_P s; rx := rest; tx := tx s |}.
Proof.
  intros Hc Hv Hn Hm Hrx. unfold read_attestation_request, bind.
  rewrite (safe_uart_read_enough _ s cv (vs ++ nonce ++ mac ++ rest)) by assumption.
  rewrite (safe_uart_read_enough _ _ vs (nonce ++ mac ++ rest)) by (assumption || reflexivity).
  cbn [C_P rx tx].
  rewrite (safe_uart_read_enough _ _ nonce (mac ++ rest)) by (assumption || reflexivity).
  cbn [C_P rx tx].
  rewrite (safe_uart_read_enough _ _ mac rest) by (assumption || reflexivity).
  reflexivity.
Qed.

(** With fewer than 100 bytes left on the line the turn never gets past
    its reads. *)
Lemma read_attestation_request_starved (s : State) :
  (List.length (rx s) < 100)%nat ->
  read_attestation_request s = Block {| C_P := C_P s; rx := []; tx := tx s |}.
Proof.
  intro H. unfold read_attestation_request, bind.
  unfold safe_uart_read at 1.
  destruct (COUNTER_SIZE <=? List.length (rx s))%nat eqn:E1; [|reflexivity].
  unfold safe_uart_read at 1. cbn [C_P rx tx]. rewrite length_skipn.
  destruct (KEY_SIZE <=? List.length (rx s) - COUNTER_SIZE)%nat eqn:E2; [|reflexivity].
  unfold safe_uart_read at 1. cbn [C_P rx tx]. rewrite !length_skipn.
  destruct (NONCE_SIZE <=? List.length (rx s) - COUNTER_SIZE - KEY_SIZE)%nat eqn:E3;
    [|reflexivity].
  unfold safe_uart_read at 1. cbn [C_P rx tx]. rewrite !length_skipn.
  destruct (OUTPUT_SIZE <=? List.length (rx s) - COUNTER_SIZE - KEY_SIZE - NONCE_SIZE)%nat
    eqn:E4; [|reflexivity].
  apply Nat.leb_le in E1, E2, E3, E4.
  unfold COUNTER_SIZE, KEY_SIZE, NONCE_SIZE, OUTPUT_SIZE in *. lia.
Qed.

(** Any 100 bytes split into the four fields. *)
Lemma request_fields (l : list byte) :
  (100 <= List.length l)%nat ->
  exists cv vs nonce mac rest,
    List.length cv = 4%nat /\ List.length vs = 32%nat /\
    List.length nonce = 32%nat /\ List.length mac = 32%nat /\
    l = cv ++ vs ++ nonce ++ mac ++ rest.
Proof.
  intro H.
  exists (firstn 4 l), (firstn 32 (skipn 4 l)), (firstn 32 (skipn 36 l)),
         (firstn 32 (skipn 68 l)), (skipn 100 l).
  repeat split; try (rewrite length_firstn, ?length_skipn; lia).
  rewrite <- (firstn_skipn 4 l) at 1. f_equal.
  rewrite <- (firstn_skipn 32 (skipn 4 l)) at 1. f_equal.
  rewrite skipn_skipn. cbn [Nat.add].
  rewrite <- (firstn_skipn 32 (skipn 36 l)) at 1. f_equal.
  rewrite skipn_skipn. cbn [Nat.add].
  rewrite <- (firstn_skipn 32 (skipn 68 l)) at 1. f_equal.
  rewrite skipn_skipn. reflexivity.
Qed.

(** What a turn does with a complete request, branch by branch. *)
Lemma round_full (k : Keys) (s : State) (cv vs nonce mac rest : list byte) :
  List.length cv = 4%nat -> List.length vs = 32%nat ->
  List.length nonce = 32%nat -> List.length mac = 32%nat ->
  rx s = cv ++ vs ++ nonce ++ mac ++ rest ->
  round k s =
    let c := uint32_of_bytes cv in
    let expected_hmac := compute_prover_hmac k c nonce (uninit OUTPUT_SIZE) in
    if C_P s >=? c then
      Ret tt {| C_P := C_P s; rx := rest; tx := tx s ++ repeat x00 33 |}
    else if memcmp mac expected_hmac OUTPUT_SIZE =? 0 then
      Ret tt {| C_P := c; rx := rest; tx := tx s ++ x01 :: expected_hmac |}
    else
      Ret tt {| C_P := C_P s; rx := rest; tx := tx s |}.
Proof.
  intros Hc Hv Hn Hm Hrx. unfold round, bind at 1.
  rewrite (read_attestation_request_full s cv vs nonce mac rest) by assumption.
  cbv zeta. unfold bind at 1, get. cbn [C_P rx tx].
  destruct (C_P s >=? uint32_of_bytes cv).
  - unfold safe_uart_write, modify. cbn [C_P rx tx]. reflexivity.
  - destruct (memcmp mac _ OUTPUT_SIZE =? 0); [|reflexivity].
    unfold bind, modify, set_C_P, safe_uart_write. cbn [C_P rx tx].
    change (firstn 1 (x01 :: repeat x00 OUTPUT_SIZE)) with [x01].
    change (skipn 1 (x01 :: repeat x00 OUTPUT_SIZE)) with (uninit OUTPUT_SIZE).
    rewrite firstn_all2; [reflexivity|].
    cbn [app List.length].
    rewrite compute_prover_hmac_length by apply uninit_length.
    unfold OUTPUT_SIZE. lia.
Qed.

(** The branch taken by a fresh request whose proof passes [memcmp]. *)
Lemma round_verified (k : Keys) (s : State) (cv vs nonce mac rest : list byte) :
  List.length cv = 4%nat -> List.length vs = 32%nat ->
  List.length nonce = 32%nat -> List.length mac = 32%nat ->
  rx s = cv ++ vs ++ nonce ++ mac ++ rest ->
  C_P s < uint32_of_bytes cv ->
  memcmp mac (compute_prover_hmac k (uint32_of_bytes cv) nonce (uninit OUTPUT_SIZE))
         OUTPUT_SIZE = 0 ->
  round k s
  = Ret tt {| C_P := uint32_of_bytes cv; rx := rest;
              tx := tx s ++ x01 :: compute_prover_hmac k (uint32_of_bytes cv) nonce
                                     (uninit OUTPUT_SIZE) |}.
Proof.
  intros Hc Hv Hn Hm Hrx Hfresh Hok.
  rewrite (round_full k s cv vs nonce mac rest) by assumption.
  cbv zeta.
  replace (C_P s >=? uint32_of_bytes cv) with false
    by (symmetry; rewrite Z.geb_leb; apply Z.leb_gt; exact Hfresh).
  rewrite Hok. reflexivity.
Qed.

(** The branch taken by a fresh request whose proof fails [memcmp]. *)
Lemma round_mismatch (k : Keys) (s : State) (cv vs nonce mac rest : list byte) :
  List.length cv = 4%nat -> List.length vs = 32%nat ->
  List.length nonce = 32%nat -> List.length mac = 32%nat ->
  rx s = cv ++ vs ++ nonce ++ mac ++ rest ->
  C_P s < uint32_of_bytes cv ->
  memcmp mac (compute_prover_hmac k (uint32_of_bytes cv) nonce (uninit OUTPUT_SIZE))
         OUTPUT_SIZE <> 0 ->
  round k s = Ret tt {| C_P := C_P s; rx := rest; tx := tx s |}.
Proof.
  intros Hc Hv Hn Hm Hrx Hfresh Hbad.
  rewrite (round_full k s cv vs nonce mac rest) by assumption.
  cbv zeta.
  replace (C_P s >=? uint32_of_bytes cv) with false
    by (symmetry; rewrite Z.geb_leb; apply Z.leb_gt; exact Hfresh).
  apply Z.eqb_neq in Hbad. rewrite Hbad. reflexivity.
Qed.

Lemma round_starved (k : Keys) (s : State) :
  (List.length (rx s) < 100)%nat ->
  round k s = Block {| C_P := C_P s; rx := []; tx := tx s |}.
Proof.
  intro H. unfold round, bind at 1.
  rewrite read_attestation_request_starved by exact H. reflexivity.
Qed.

End ProverFacts.

(* ------------------------------------------------------------------ *)
(** ** The Prover: freshness, verification and the counter *)

(** C1. A Request whose counter is not above [C_P] is answered with a
    Report of 33 zero bytes, so with success flag 0, and [C_P] is left as
    it was. *)
Theorem C1_stale_request_rejected
    (k : Keys) (s : Prover.State) (cv vs nonce mac rest : list byte) :
  List.length cv = 4%nat -> List.length vs = 32%nat ->
  List.length nonce = 32%nat -> List.length mac = 32%nat ->
  Prover.rx s = cv ++ vs ++ nonce ++ mac ++ rest ->
  uint32_of_bytes cv <= Prover.C_P s ->
  Prover.round k s
  = Ret tt {| Prover.C_P := Prover.C_P s; Prover.rx := rest;
              Prover.tx := Prover.tx s ++ repeat x00 33 |}.
Proof.
  intros Hc Hv Hn Hm Hrx Hstale.
  rewrite (ProverFacts.round_full k s cv vs nonce mac rest) by assumption.
  cbv zeta.
  replace (Prover.C_P s >=? uint32_of_bytes cv) with true
    by (symmetry; apply Z.geb_le; exact Hstale).
  reflexivity.
Qed.

(** The replay of scenario B: [request1] arrives when [C_P] is already 1. *)
Lemma C1_stale_request_rejected_witness :
  let s := {| Prover.C_P := 1; Prover.rx := Scenario.request1; Prover.tx := [] |} in
  uint32_of_bytes (firstn 4 Scenario.request1) <= Prover.C_P s
  /\ Prover.round Scenario.keys s
     = Ret tt {| Prover.C_P := 1; Prover.rx := []; Prover.tx := repeat x00 33 |}.
Proof.
  intro s. split; [vm_compute; discriminate|].
  apply (C1_stale_request_rejected Scenario.keys s
           (firstn 4 Scenario.request1)
           (firstn 32 (skipn 4 Scenario.request1))
           (firstn 32 (skipn 36 Scenario.request1))
           (skipn 68 Scenario.request1) []);
    reflexivity.
Defined.

(** C2. [C_P] never decreases from turn to turn.  A turn whose request
    passes both the freshness test and the [memcmp] test ends with [C_P]
    equal to the request's counter, which is above the old value; any
    other turn, whether it rejects the request or never receives a
    complete one, ends with [C_P] as it was. *)
Theorem C2_counter_monotonic (k : Keys) :
  (forall (s : Prover.State) (cv vs nonce mac rest : list byte),
      List.length cv = 4%nat -> List.length vs = 32%nat ->
      List.length nonce = 32%nat -> List.length mac = 32%nat ->
      Prover.rx s = cv ++ vs ++ nonce ++ mac ++ rest ->
      let c := uint32_of_bytes cv in
      let s' := state_of (Prover.round k s) in
      let verified :=
        (Prover.C_P s <? c)
        && (memcmp mac (Prover.compute_prover_hmac k c nonce (uninit Prover.OUTPUT_SIZE))
                   Prover.OUTPUT_SIZE =? 0) in
      (verified = true -> Prover.C_P s' = c /\ Prover.C_P s < Prover.C_P s')
      /\ (verified = false -> Prover.C_P s' = Prover.C_P s))
  /\ (forall s : Prover.State,
        (List.length (Prover.rx s) < 100)%nat ->
        Prover.C_P (state_of (Prover.round k s)) = Prover.C_P s)
  /\ (forall (turns : nat) (s : Prover.State),
        Prover.C_P s <= Prover.C_P (state_of (iterate turns (Prover.round k) s))).
Proof.
  assert (Hfull : forall (s : Prover.State) (cv vs nonce mac rest : list byte),
      List.length cv = 4%nat -> List.length vs = 32%nat ->
      List.length nonce = 32%nat -> List.length mac = 32%nat ->
      Prover.rx s = cv ++ vs ++ nonce ++ mac ++ rest ->
      let c := uint32_of_bytes cv in
      let s' := state_of (Prover.round k s) in
      let verified :=
        (Prover.C_P s <? c)
        && (memcmp mac (Prover.compute_prover_hmac k c nonce (uninit Prover.OUTPUT_SIZE))
                   Prover.OUTPUT_SIZE =? 0) in
      (verified = true -> Prover.C_P s' = c /\ Prover.C_P s < Prover.C_P s')
      /\ (verified = false -> Prover.C_P s' = Prover.C_P s)).
  { intros s cv vs nonce mac rest Hc Hv Hn Hm Hrx c s' verified.
    subst s' verified.
    rewrite (ProverFacts.round_full k s cv vs nonce mac rest) by assumption.
    cbv zeta. fold c. rewrite Z.geb_leb.
    destruct (Z.leb_spec c (Prover.C_P s)) as [Hle|Hlt].
    - replace (Prover.C_P s <? c) with false by (symmetry; apply Z.ltb_ge; exact Hle).
      cbn. split; [discriminate|reflexivity].
    - replace (Prover.C_P s <? c) with true by (symmetry; apply Z.ltb_lt; exact Hlt).
      cbn [andb].
      destruct (memcmp mac _ Prover.OUTPUT_SIZE =? 0); cbn.
      + split; [intros _; split; [reflexivity|exact Hlt]|discriminate].
      + split; [discriminate|reflexivity]. }
  assert (Hshort : forall s : Prover.State,
             (List.length (Prover.rx s) < 100)%nat ->
             Prover.C_P (state_of (Prover.round k s)) = Prover.C_P s).
  { intros s H. rewrite ProverFacts.round_starved by exact H. reflexivity. }
  assert (Hone : forall s, Prover.C_P s <= Prover.C_P (state_of (Prover.round k s))).
  { intro s. destruct (Nat.lt_ge_cases (List.length (Prover.rx s)) 100) as [Hlt|Hge].
    - rewrite Hshort by exact Hlt. lia.
    - destruct (ProverFacts.request_fields _ Hge)
        as (cv & vs & nonce & mac & rest & Hc & Hv & Hn & Hm & Hrx).
      destruct (Hfull s cv vs nonce mac rest Hc Hv Hn Hm Hrx) as [Hacc Hrej].
      cbv zeta in Hacc, Hrej.
      destruct ((Prover.C_P s <? uint32_of_bytes cv)
                && (memcmp mac _ Prover.OUTPUT_SIZE =? 0)).
      + destruct (Hacc eq_refl). lia.
      + rewrite (Hrej eq_refl). lia. }
  split; [exact Hfull|]. split; [exact Hshort|].
  induction turns as [|turns IH]; intro s.
  - cbn. lia.
  - cbn [iterate]. unfold bind. specialize (Hone s).
    destruct (Prover.round k s) as [[] s1|s1]; cbn [state_of] in *.
    + specialize (IH s1). lia.
    + exact Hone.
Qed.

(** Scenario A accepts [request1] and moves [C_P] from 0 to 1; its replay
    leaves [C_P] at 1; a line that ends mid-request leaves it alone. *)
Lemma C2_counter_monotonic_witness :
  (Prover.C_P (state_of (Prover.round Scenario.keys (Scenario.prover_start Scenario.request1))) = 1
   /\ 0 < Prover.C_P (state_of (Prover.round Scenario.keys
                                  (Scenario.prover_start Scenario.request1))))
  /\ Prover.C_P (state_of (Prover.round Scenario.keys
        {| Prover.C_P := 1; Prover.rx := Scenario.request1; Prover.tx := [] |})) = 1
  /\ Prover.C_P (state_of (Prover.round Scenario.keys
        {| Prover.C_P := 5; Prover.rx := firstn 40 Scenario.request1; Prover.tx := [] |})) = 5.
Proof.
  pose proof (C2_counter_monotonic Scenario.keys) as (Hfull & Hshort & _).
  split; [|split].
  - apply (Hfull (Scenario.prover_start Scenario.request1)
             (firstn 4 Scenario.request1)
             (firstn 32 (skipn 4 Scenario.request1))
             (firstn 32 (skipn 36 Scenario.request1))
             (skipn 68 Scenario.request1) []); vm_compute; reflexivity.
  - apply (Hfull {| Prover.C_P := 1; Prover.rx := Scenario.request1; Prover.tx := [] |}
             (firstn 4 Scenario.request1)
             (firstn 32 (skipn 4 Scenario.request1))
             (firstn 32 (skipn 36 Scenario.request1))
             (skipn 68 Scenario.request1) []); vm_compute; reflexivity.
  - apply (Hshort {| Prover.C_P := 5; Prover.rx := firstn 40 Scenario.request1;
                     Prover.tx := [] |}).
    vm_compute. lia.
Defined.

(** C3. A request that passes the freshness test and fails the [memcmp]
    test leaves [C_P] as it was, as the claim says, but the turn ends
    without writing a single byte: no Report with flag 0 is sent, unlike
    on the stale-counter path. *)
Theorem C3_mismatch_sends_no_report
    (k : Keys) (s : Prover.State) (cv vs nonce mac rest : list byte) :
  List.length cv = 4%nat -> List.length vs = 32%nat ->
  List.length nonce = 32%nat -> List.length mac = 32%nat ->
  Prover.rx s = cv ++ vs ++ nonce ++ mac ++ rest ->
  Prover.C_P s < uint32_of_bytes cv ->
  memcmp mac (Prover.compute_prover_hmac k (uint32_of_bytes cv) nonce
                (uninit Prover.OUTPUT_SIZE)) Prover.OUTPUT_SIZE <> 0 ->
  let s' := state_of (Prover.round k s) in
  blocked (Prover.round k s) = false
  /\ Prover.C_P s' = Prover.C_P s
  /\ Prover.tx s' = Prover.tx s
  /\ Prover.tx s' <> Prover.tx s ++ repeat x00 33.
Proof.
  intros Hc Hv Hn Hm Hrx Hfresh Hbad s'. subst s'.
  rewrite (ProverFacts.round_mismatch k s cv vs nonce mac rest) by assumption.
  cbn [blocked state_of Prover.C_P Prover.tx].
  repeat split.
  intro H. apply (f_equal (@List.length byte)) in H.
  rewrite length_app, repeat_length in H. lia.
Qed.

(** Scenario C, a request whose nonce was changed on the line: the
    counter 1 is fresh, the proof no longer matches, the Prover stays at
    0 and writes nothing; the Verifier, which reads 33 bytes after every
    request, is left waiting. *)
Lemma C3_mismatch_sends_no_report_witness :
  let s := Scenario.prover_start Scenario.tampered1 in
  (blocked (Prover.round Scenario.keys s) = false
   /\ Prover.C_P (state_of (Prover.round Scenario.keys s)) = 0
   /\ Prover.tx (state_of (Prover.round Scenario.keys s)) = []
   /\ Prover.tx (state_of (Prover.round Scenario.keys s)) <> [] ++ repeat x00 33)
  /\ blocked (Verifier.round Scenario.keys
                (Scenario.verifier_start
                   (Prover.tx (state_of (Prover.round Scenario.keys s))))) = true.
Proof.
  intro s. split.
  - apply (C3_mismatch_sends_no_report Scenario.keys s
             (firstn 4 Scenario.tampered1) (firstn 32 (skipn 4 Scenario.tampered1))
             (firstn 32 (skipn 36 Scenario.tampered1)) (skipn 68 Scenario.tampered1) []);
      vm_compute; (reflexivity || discriminate).
  - vm_compute. reflexivity.
Defined.

(** C5. Two requests that differ only in the 32 bytes of the digest
    field lead to the same outcome of the turn: the same [C_P], the same
    bytes written, the same bytes left on the line. *)
Theorem C5_received_digest_ignored
    (k : Keys) (C : Z) (sent cv d1 d2 tail : list byte) :
  List.length cv = 4%nat -> List.length d1 = 32%nat -> List.length d2 = 32%nat ->
  Prover.round k {| Prover.C_P := C; Prover.rx := cv ++ d1 ++ tail; Prover.tx := sent |}
  = Prover.round k {| Prover.C_P := C; Prover.rx := cv ++ d2 ++ tail; Prover.tx := sent |}.
Proof.
  intros Hc H1 H2.
  destruct (Nat.lt_ge_cases (List.length tail) 64) as [Hlt|Hge].
  - rewrite !ProverFacts.round_starved
      by (cbn [Prover.rx]; rewrite !length_app; lia).
    reflexivity.
  - assert (Hs : exists nonce mac rest,
               List.length nonce = 32%nat /\ List.length mac = 32%nat
               /\ tail = nonce ++ mac ++ rest).
    { exists (firstn 32 tail), (firstn 32 (skipn 32 tail)), (skipn 64 tail).
      repeat split; try (rewrite length_firstn, ?length_skipn; lia).
      rewrite <- (firstn_skipn 32 tail) at 1. f_equal.
      rewrite <- (firstn_skipn 32 (skipn 32 tail)) at 1. f_equal.
      rewrite skipn_skipn. reflexivity. }
    destruct Hs as (nonce & mac & rest & Hn & Hm & ->).
    rewrite (ProverFacts.round_full k _ cv d1 nonce mac rest) by (assumption || reflexivity).
    rewrite (ProverFacts.round_full k _ cv d2 nonce mac rest) by (assumption || reflexivity).
    reflexivity.
Qed.

(** [request1] and the same request with its digest field zeroed. *)
Lemma C5_received_digest_ignored_witness :
  Prover.round Scenario.keys (Scenario.prover_start Scenario.request1)
  = Prover.round Scenario.keys
      (Scenario.prover_start
         (firstn 4 Scenario.request1 ++ Scenario.zeros 32 ++ skipn 36 Scenario.request1)).
Proof.
  apply (C5_received_digest_ignored Scenario.keys 0 []
           (firstn 4 Scenario.request1) (firstn 32 (skipn 4 Scenario.request1))
           (Scenario.zeros 32) (skipn 36 Scenario.request1));
    vm_compute; reflexivity.
Defined.

(** C10. When a request is accepted, the 32 bytes after the flag in the
    Report are the very bytes of the proof field of the request. *)
Theorem C10_report_echoes_request_proof
    (k : Keys) (s : Prover.State) (cv vs nonce mac rest : list byte) :
  List.length cv = 4%nat -> List.length vs = 32%nat ->
  List.length nonce = 32%nat -> List.length mac = 32%nat ->
  Prover.rx s = cv ++ vs ++ nonce ++ mac ++ rest ->
  Prover.C_P s < uint32_of_bytes cv ->
  memcmp mac (Prover.compute_prover_hmac k (uint32_of_bytes cv) nonce
                (uninit Prover.OUTPUT_SIZE)) Prover.OUTPUT_SIZE = 0 ->
  Prover.round k s
  = Ret tt {| Prover.C_P := uint32_of_bytes cv; Prover.rx := rest;
              Prover.tx := Prover.tx s ++ x01 :: mac |}.
Proof.
  intros Hc Hv Hn Hm Hrx Hfresh Hok.
  rewrite (ProverFacts.round_verified k s cv vs nonce mac rest) by assumption.
  apply memcmp_zero_iff in Hok;
    [|exact Hm|apply compute_prover_hmac_length, uninit_length].
  rewrite <- Hok. reflexivity.
Qed.

(** Scenario A: the report is the flag 1 followed by the proof of [request1]. *)
Lemma C10_report_echoes_request_proof_witness :
  Prover.round Scenario.keys (Scenario.prover_start Scenario.request1)
  = Ret tt {| Prover.C_P := 1; Prover.rx := [];
              Prover.tx := x01 :: skipn 68 Scenario.request1 |}.
Proof.
  apply (C10_report_echoes_request_proof Scenario.keys
           (Scenario.prover_start Scenario.request1)
           (firstn 4 Scenario.request1) (firstn 32 (skipn 4 Scenario.request1))
           (firstn 32 (skipn 36 Scenario.request1)) (skipn 68 Scenario.request1) []);
    vm_compute; reflexivity.
Defined.

(* ------------------------------------------------------------------ *)
(** ** One turn of the Verifier's loop *)

Module VerifierFacts.
Import Verifier VerifierTurn.

Lemma nonce_of_length (s : State) : List.length (nonce_of s) = 32%nat.
Proof.
  unfold nonce_of. rewrite fread_length; rewrite uninit_length; reflexivity.
Qed.

Lemma request_of_length (k : Keys) (s : State) : List.length (request_of k s) = 100%nat.
Proof.
  unfold request_of.
  rewrite !length_app, uint32_bytes_length, compute_valid_software_state_length,
    nonce_of_length, compute_verifier_hmac_length by apply uninit_length.
  reflexivity.
Qed.

(** A turn draws the nonce, steps the counter, keys the digest over the
    new counter, writes the four fields and then waits for 33 bytes. *)
Lemma round_unfold (k : Keys) (s : State) :
  round k s =
    if (33 <=? List.length (rx s))%nat then
      Ret (byte_to_Z (nth 0 (firstn 33 (rx s)) x00) =? 1)
          {| C_V := counter_of s; rx := skipn 33 (rx s);
             tx := tx s ++ request_of k s; urandom := skipn NONCE_SIZE (urandom s) |}
    else
      Block {| C_V := counter_of s; rx := [];
               tx := tx s ++ request_of k s; urandom := skipn NONCE_SIZE (urandom s) |}.
Proof.
  cbv [round bind generate_nonce increment_C_V send_attestation_request
       get modify safe_uart_write safe_uart_read ret].
  cbn [C_V rx tx urandom].
  fold (nonce_of s). fold (counter_of s).
  pose proof (nonce_of_length s) as Hn.
  pose proof (compute_valid_software_state_length k) as Hv.
  pose proof (compute_verifier_hmac_length k (counter_of s) (nonce_of s)
                (uninit OUTPUT_SIZE) (uninit_length _)) as Hh.
  rewrite (firstn_all2 (n := COUNTER_SIZE) (uint32_bytes (counter_of s)))
    by (rewrite uint32_bytes_length; reflexivity).
  rewrite (firstn_all2 (n := KEY_SIZE) (compute_valid_software_state k))
    by (rewrite Hv; reflexivity).
  rewrite (firstn_all2 (n := NONCE_SIZE) (nonce_of s)) by (rewrite Hn; reflexivity).
  rewrite (firstn_all2 (n := OUTPUT_SIZE) (compute_verifier_hmac _ _ _ _))
    by (rewrite Hh; reflexivity).
  unfold request_of. rewrite <- !app_assoc.
  change (1 + OUTPUT_SIZE)%nat with 33%nat.
  destruct (33 <=? List.length (rx s))%nat; reflexivity.
Qed.

End VerifierFacts.

(* ------------------------------------------------------------------ *)
(** ** The two roles together *)

(** C4. For every key state, counter and nonce, the digest the Prover
    recomputes is the digest the Verifier computed, and [memcmp] of the
    two is 0.  With keys and nonce of their declared 32 bytes that digest
    is the HMAC under [Kauth] of counter, locally computed software state
    and nonce, in that order.  A Prover whose counter is below the
    Verifier's new counter accepts the request a Verifier turn writes. *)
Theorem C4_honest_proof_verifies (k : Keys) :
  (forall (c : Z) (nonce : list byte),
      Prover.compute_prover_hmac k c nonce (uninit Prover.OUTPUT_SIZE)
      = Verifier.compute_verifier_hmac k c nonce (uninit Verifier.OUTPUT_SIZE)
      /\ memcmp (Verifier.compute_verifier_hmac k c nonce (uninit Verifier.OUTPUT_SIZE))
                (Prover.compute_prover_hmac k c nonce (uninit Prover.OUTPUT_SIZE))
                Prover.OUTPUT_SIZE = 0)
  /\ (forall (c : Z) (nonce : list byte),
         List.length (Kauth k) = 32%nat -> List.length nonce = 32%nat ->
         Prover.compute_prover_hmac k c nonce (uninit Prover.OUTPUT_SIZE)
         = SHA256.HMAC (Kauth k)
             (uint32_bytes c ++ compute_valid_software_state k ++ nonce))
  /\ (forall (v : Verifier.State) (p : Prover.State) (rest : list byte),
         let v' := state_of (Verifier.round k v) in
         Prover.rx p = skipn (List.length (Verifier.tx v)) (Verifier.tx v') ++ rest ->
         Prover.C_P p < Verifier.C_V v' ->
         Prover.round k p
         = Ret tt {| Prover.C_P := Verifier.C_V v'; Prover.rx := rest;
                     Prover.tx :=
                       Prover.tx p
                         ++ x01 :: Verifier.compute_verifier_hmac k (Verifier.C_V v')
                                     (VerifierTurn.nonce_of v)
                                     (uninit Verifier.OUTPUT_SIZE) |}).
Proof.
  assert (Hagree : forall (c : Z) (nonce : list byte),
      Prover.compute_prover_hmac k c nonce (uninit Prover.OUTPUT_SIZE)
      = Verifier.compute_verifier_hmac k c nonce (uninit Verifier.OUTPUT_SIZE)
      /\ memcmp (Verifier.compute_verifier_hmac k c nonce (uninit Verifier.OUTPUT_SIZE))
                (Prover.compute_prover_hmac k c nonce (uninit Prover.OUTPUT_SIZE))
                Prover.OUTPUT_SIZE = 0).
  { intros c nonce. split; [apply prover_verifier_hmac_agree|].
    change (Prover.compute_prover_hmac k c nonce (uninit Prover.OUTPUT_SIZE))
      with (Verifier.compute_verifier_hmac k c nonce (uninit Verifier.OUTPUT_SIZE)).
    apply memcmp_refl.
    rewrite compute_verifier_hmac_length by apply uninit_length.
    unfold Prover.OUTPUT_SIZE. lia. }
  split; [exact Hagree|]. split.
  { intros c nonce Hk Hn.
    apply compute_prover_hmac_layout; [exact Hn|apply uninit_length|exact Hk]. }
  intros v p rest v' Hrx Hfresh.
  assert (Hv' : Verifier.C_V v' = VerifierTurn.counter_of v
                /\ Verifier.tx v' = Verifier.tx v ++ VerifierTurn.request_of k v).
  { subst v'. rewrite VerifierFacts.round_unfold.
    destruct (33 <=? List.length (Verifier.rx v))%nat;
      cbn [state_of Verifier.C_V Verifier.tx]; split; reflexivity. }
  destruct Hv' as [Hc Htx].
  rewrite Htx, skipn_app, Nat.sub_diag, skipn_all in Hrx. cbn [skipn app] in Hrx.
  unfold VerifierTurn.request_of in Hrx. rewrite <- !app_assoc in Hrx.
  assert (Hcount : uint32_of_bytes (uint32_bytes (VerifierTurn.counter_of v))
                   = VerifierTurn.counter_of v).
  { rewrite <- (app_nil_r (uint32_bytes _)), uint32_of_bytes_bytes.
    unfold VerifierTurn.counter_of. apply Z.mod_mod. lia. }
  rewrite (ProverFacts.round_verified k p _ _ _ _ rest
             (uint32_bytes_length _) (compute_valid_software_state_length k)
             (VerifierFacts.nonce_of_length v)
             (compute_verifier_hmac_length k _ _ _ (uninit_length _)) Hrx).
  - rewrite Hcount, Hc. reflexivity.
  - rewrite Hcount, <- Hc. exact Hfresh.
  - rewrite Hcount. apply Hagree.
Qed.

(** Scenario A from both ends: the bytes the Verifier's first turn
    writes are accepted by a Prover that starts at 0, and the proof in
    them is the HMAC under the key of "kauth.key" of the 68 bytes before
    it. *)
Lemma C4_honest_proof_verifies_witness :
  Prover.compute_prover_hmac Scenario.keys 1 (firstn 32 Scenario.random)
    (uninit Prover.OUTPUT_SIZE)
  = SHA256.HMAC Scenario.kauth_file
      (uint32_bytes 1 ++ compute_valid_software_state Scenario.keys
         ++ firstn 32 Scenario.random)
  /\ Prover.round Scenario.keys (Scenario.prover_start Scenario.request1)
     = Ret tt {| Prover.C_P := 1; Prover.rx := [];
                 Prover.tx := [] ++ x01 :: skipn 68 Scenario.request1 |}.
Proof.
  pose proof (C4_honest_proof_verifies Scenario.keys) as (_ & Hlayout & Haccept).
  split.
  - apply (Hlayout 1 (firstn 32 Scenario.random)); reflexivity.
  - specialize (Haccept (Scenario.verifier_start [])
                        (Scenario.prover_start Scenario.request1) []).
    cbv zeta in Haccept.
    replace (skipn 68 Scenario.request1)
      with (Verifier.compute_verifier_hmac Scenario.keys
              (Verifier.C_V (state_of (Verifier.round Scenario.keys
                                         (Scenario.verifier_start []))))
              (VerifierTurn.nonce_of (Scenario.verifier_start []))
              (uninit Verifier.OUTPUT_SIZE))
      by (vm_compute; reflexivity).
    apply Haccept; vm_compute; reflexivity.
Defined.

(* ------------------------------------------------------------------ *)
(** ** The Verifier's counter *)

(** C6 as stated fails at the last counter value: the turn that starts
    with [C_V] = 2^32 - 1 completes like any other, with [C_V] back at 0
    and a request on the line whose counter field is 0. *)
Lemma C6_counter_wraps_counterexample :
  let s := {| Verifier.C_V := 4294967295; Verifier.rx := Scenario.report1;
              Verifier.tx := []; Verifier.urandom := Scenario.random |} in
  let o := Verifier.round Scenario.keys s in
  blocked o = false
  /\ Verifier.C_V (state_of o) = 0
  /\ Verifier.C_V (state_of o) <> Verifier.C_V s + 1
  /\ Verifier.C_V (state_of o) < Verifier.C_V s
  /\ List.length (Verifier.tx (state_of o)) = 100%nat
  /\ firstn 4 (Verifier.tx (state_of o)) = [x00; x00; x00; x00].
Proof.
  vm_compute. repeat split; discriminate.
Qed.

(** C6, amended.  A turn replaces [C_V] by [C_V + 1] modulo 2^32 before
    it keys the digest and writes the request, both of which use the new
    value: below 2^32 - 1 the counter goes up by exactly 1, at 2^32 - 1
    it wraps to 0, and no turn stops because of the counter. *)
Theorem C6_counter_increment_wraps (k : Keys) (s : Verifier.State) :
  0 <= Verifier.C_V s < 2^32 ->
  let s' := state_of (Verifier.round k s) in
  let nonce := VerifierTurn.nonce_of s in
  Verifier.C_V s' = (Verifier.C_V s + 1) mod 2^32
  /\ (Verifier.C_V s < 2^32 - 1 -> Verifier.C_V s' = Verifier.C_V s + 1)
  /\ (Verifier.C_V s = 2^32 - 1 -> Verifier.C_V s' = 0)
  /\ Verifier.tx s'
     = Verifier.tx s
         ++ uint32_bytes (Verifier.C_V s')
         ++ compute_valid_software_state k
         ++ nonce
         ++ Verifier.compute_verifier_hmac k (Verifier.C_V s') nonce
              (uninit Verifier.OUTPUT_SIZE).
Proof.
  intros Hrange s' nonce.
  assert (Hs' : Verifier.C_V s' = VerifierTurn.counter_of s
                /\ Verifier.tx s' = Verifier.tx s ++ VerifierTurn.request_of k s).
  { subst s'. rewrite VerifierFacts.round_unfold.
    destruct (33 <=? List.length (Verifier.rx s))%nat;
      cbn [state_of Verifier.C_V Verifier.tx]; split; reflexivity. }
  destruct Hs' as [Hc Htx]. rewrite Hc, Htx.
  unfold VerifierTurn.counter_of.
  repeat split.
  - intro Hlt. apply Z.mod_small. lia.
  - intro Hmax. rewrite Hmax. reflexivity.
Qed.

(** The first turn takes the counter from 0 to 1, the turn after the
    last value takes it to 0. *)
Lemma C6_counter_increment_wraps_witness :
  Verifier.C_V (state_of (Verifier.round Scenario.keys (Scenario.verifier_start []))) = 0 + 1
  /\ Verifier.C_V (state_of (Verifier.round Scenario.keys
        {| Verifier.C_V := 2^32 - 1; Verifier.rx := []; Verifier.tx := [];
           Verifier.urandom := [] |})) = 0.
Proof.
  split.
  - apply (C6_counter_increment_wraps Scenario.keys (Scenario.verifier_start []));
      vm_compute; split; congruence.
  - apply (C6_counter_increment_wraps Scenario.keys
             {| Verifier.C_V := 2^32 - 1; Verifier.rx := []; Verifier.tx := [];
                Verifier.urandom := [] |}).
    + vm_compute; split; congruence.
    + reflexivity.
Defined.

(* ------------------------------------------------------------------ *)
(** ** The bytes on the line *)

(** C9. A Verifier turn writes exactly 100 bytes: the counter in four
    bytes, least significant first, then a 32-byte digest, a 32-byte
    nonce and a 32-byte proof; the Prover reads the fields back in that
    order.  A Prover turn that answers writes exactly 33 bytes: a flag
    byte, 0 or 1, then 32 bytes; the Verifier reads 33 bytes and tests
    the first. *)
Theorem C9_wire_layout (k : Keys) :
  (forall c : Z,
      map byte_to_Z (uint32_bytes c)
      = [c mod 2^8; (c / 2^8) mod 2^8; (c / 2^16) mod 2^8; (c / 2^24) mod 2^8])
  /\ (forall v : Verifier.State,
        let v' := state_of (Verifier.round k v) in
        let digest := compute_valid_software_state k in
        let nonce := VerifierTurn.nonce_of v in
        let proof := Verifier.compute_verifier_hmac k (Verifier.C_V v') nonce
                       (uninit Verifier.OUTPUT_SIZE) in
        List.length (uint32_bytes (Verifier.C_V v')) = 4%nat
        /\ List.length digest = 32%nat /\ List.length nonce = 32%nat
        /\ List.length proof = 32%nat
        /\ Verifier.tx v'
           = Verifier.tx v ++ uint32_bytes (Verifier.C_V v') ++ digest ++ nonce ++ proof
        /\ List.length (uint32_bytes (Verifier.C_V v') ++ digest ++ nonce ++ proof)
           = 100%nat)
  /\ (forall (p : Prover.State) (c : Z) (digest nonce proof rest : list byte),
        0 <= c < 2^32 ->
        List.length digest = 32%nat -> List.length nonce = 32%nat ->
        List.length proof = 32%nat ->
        Prover.rx p = uint32_bytes c ++ digest ++ nonce ++ proof ++ rest ->
        Prover.read_attestation_request p
        = Ret (c, digest, nonce, proof)
              {| Prover.C_P := Prover.C_P p; Prover.rx := rest; Prover.tx := Prover.tx p |})
  /\ (forall p : Prover.State,
        (100 <= List.length (Prover.rx p))%nat ->
        let p' := state_of (Prover.round k p) in
        Prover.tx p' = Prover.tx p
        \/ exists flag proof,
             (flag = x00 \/ flag = x01) /\ List.length proof = 32%nat
             /\ Prover.tx p' = Prover.tx p ++ flag :: proof)
  /\ (forall (v : Verifier.State) (flag : byte) (proof rest : list byte),
        List.length proof = 32%nat ->
        Verifier.rx v = flag :: proof ++ rest ->
        exists v',
          Verifier.round k v = Ret (byte_to_Z flag =? 1) v' /\ Verifier.rx v' = rest).
Proof.
  split; [|split; [|split; [|split]]].
  - intro c. unfold uint32_bytes. cbn [map]. rewrite !byte_to_of_Z. reflexivity.
  - intros v v' digest nonce proof. subst digest nonce proof.
    assert (Hv' : Verifier.C_V v' = VerifierTurn.counter_of v
                  /\ Verifier.tx v' = Verifier.tx v ++ VerifierTurn.request_of k v).
    { subst v'. rewrite VerifierFacts.round_unfold.
      destruct (33 <=? List.length (Verifier.rx v))%nat;
        cbn [state_of Verifier.C_V Verifier.tx]; split; reflexivity. }
    destruct Hv' as [Hc Htx]. rewrite Hc, Htx.
    split; [reflexivity|].
    split; [apply compute_valid_software_state_length|].
    split; [apply VerifierFacts.nonce_of_length|].
    split; [apply compute_verifier_hmac_length, uninit_length|].
    split; [reflexivity|].
    exact (VerifierFacts.request_of_length k v).
  - intros p c digest nonce proof rest Hc Hd Hn Hp Hrx.
    rewrite (ProverFacts.read_attestation_request_full p (uint32_bytes c)
               digest nonce proof rest) by (assumption || reflexivity).
    rewrite <- (app_nil_r (uint32_bytes c)), uint32_of_bytes_bytes.
    rewrite Z.mod_small by exact Hc. reflexivity.
  - intros p Hlen p'. subst p'.
    destruct (ProverFacts.request_fields _ Hlen)
      as (cv & vs & nonce & mac & rest & Hc & Hv & Hn & Hm & Hrx).
    rewrite (ProverFacts.round_full k p cv vs nonce mac rest) by assumption.
    cbv zeta.
    destruct (Prover.C_P p >=? uint32_of_bytes cv).
    + right. exists x00, (repeat x00 32). cbn [state_of Prover.tx].
      split; [left; reflexivity|]. split; reflexivity.
    + destruct (memcmp mac _ Prover.OUTPUT_SIZE =? 0).
      * right. eexists x01, _. cbn [state_of Prover.tx].
        split; [right; reflexivity|]. split; [|reflexivity].
        apply compute_prover_hmac_length, uninit_length.
      * left. reflexivity.
  - intros v flag proof rest Hp Hrx.
    rewrite VerifierFacts.round_unfold, Hrx.
    replace (33 <=? List.length (flag :: proof ++ rest))%nat with true
      by (symmetry; apply Nat.leb_le; cbn [List.length]; rewrite length_app; lia).
    eexists. split; [reflexivity|].
    cbn [Verifier.rx].
    change (skipn 33 (flag :: proof ++ rest)) with (skipn 32 (proof ++ rest)).
    rewrite skipn_app, Hp, Nat.sub_diag.
    rewrite skipn_all2 by lia. reflexivity.
Qed.

(** The layout read off scenario A: [request1] is parsed into counter 1
    and its three 32-byte fields, and [report1] makes the Verifier's test
    of the first byte come out true. *)
Lemma C9_wire_layout_witness :
  Prover.read_attestation_request (Scenario.prover_start Scenario.request1)
  = Ret (1, firstn 32 (skipn 4 Scenario.request1),
         firstn 32 (skipn 36 Scenario.request1), skipn 68 Scenario.request1)
        {| Prover.C_P := 0; Prover.rx := []; Prover.tx := [] |}
  /\ (let p' := state_of (Prover.round Scenario.keys
                            (Scenario.prover_start Scenario.request1)) in
      Prover.tx p' = []
      \/ exists flag proof,
           (flag = x00 \/ flag = x01) /\ List.length proof = 32%nat
           /\ Prover.tx p' = [] ++ flag :: proof)
  /\ exists v',
       Verifier.round Scenario.keys (Scenario.verifier_start Scenario.report1)
       = Ret (byte_to_Z x01 =? 1) v' /\ Verifier.rx v' = [].
Proof.
  pose proof (C9_wire_layout Scenario.keys) as (_ & _ & Hparse & Hreport & Hread).
  split; [|split].
  - apply (Hparse (Scenario.prover_start Scenario.request1) 1
             (firstn 32 (skipn 4 Scenario.request1))
             (firstn 32 (skipn 36 Scenario.request1))
             (skipn 68 Scenario.request1) []); try reflexivity.
    lia.
  - apply (Hreport (Scenario.prover_start Scenario.request1)).
    vm_compute. apply le_n.
  - apply (Hread (Scenario.verifier_start Scenario.report1) x01
             (skipn 1 Scenario.report1) []); reflexivity.
Defined.

(* ------------------------------------------------------------------ *)
(** ** Start-up without key files *)

(** C7 as stated fails: with neither key file readable both roles go on
    into their loops with all-zero keys.  The Verifier writes a request
    keyed with them, and the Prover accepts that request. *)
Lemma C7_startup_continues_counterexample :
  initialize_keys Scenario.unprovisioned zero_keys
  = (zero_keys, ["Error loading key"%string; "Error loading key"%string])
  /\ Verifier.main Scenario.unprovisioned (Some []) Scenario.random 1
     = Verifier.Looping
         (Block {| Verifier.C_V := 1; Verifier.rx := [];
                   Verifier.tx := Scenario.unkeyed_request;
                   Verifier.urandom := skipn 32 Scenario.random |})
         ["Error loading key"%string; "Error loading key"%string]
  /\ Prover.main Scenario.unprovisioned (Some Scenario.unkeyed_request) 1
     = Prover.Looping
         (Ret tt {| Prover.C_P := 1; Prover.rx := [];
                    Prover.tx := x01 :: skipn 68 Scenario.unkeyed_request |})
         ["Error loading key"%string; "Error loading key"%string].
Proof.
  vm_compute. repeat split.
Qed.

(** C7, amended.  A key file that cannot be opened costs a line on
    [stderr] and leaves that key at its initial value of 32 zero bytes;
    start-up carries on, and whenever the serial line opens, the role
    enters its loop with the keys it has. *)
Theorem C7_key_load_failure_not_fatal (fs : FileSystem) :
  let k := fst (initialize_keys fs zero_keys) in
  let err := snd (initialize_keys fs zero_keys) in
  (fs "kauth.key"%string = None ->
     Kauth k = repeat x00 32 /\ In "Error loading key"%string err)
  /\ (fs "kattest.key"%string = None ->
        Kattest k = repeat x00 32 /\ In "Error loading key"%string err)
  /\ (forall (line : list byte) (turns : nat),
         Prover.main fs (Some line) turns
         = Prover.Looping
             (iterate turns (Prover.round k)
                {| Prover.C_P := 0; Prover.rx := line; Prover.tx := [] |}) err)
  /\ (forall (line random : list byte) (turns : nat),
         Verifier.main fs (Some line) random turns
         = Verifier.Looping
             (iterate turns (Verifier.round k ;;; ret tt)
                {| Verifier.C_V := 0; Verifier.rx := line; Verifier.tx := [];
                   Verifier.urandom := random |}) err).
Proof.
  intros k err. subst k err.
  unfold Prover.main, Verifier.main, initialize_keys, load_key_from_file.
  cbn [Kauth Kattest zero_keys].
  destruct (fs "kauth.key"%string) as [a|], (fs "kattest.key"%string) as [b|];
    cbn [fst snd Kauth Kattest app];
    repeat match goal with
           | |- _ /\ _ => split
           | |- _ -> _ => intro
           | H : Some _ = None |- _ => discriminate H
           end;
    try reflexivity; cbn [In]; auto.
Qed.

Lemma C7_key_load_failure_not_fatal_witness :
  (Kauth (fst (initialize_keys Scenario.unprovisioned zero_keys)) = repeat x00 32
   /\ In "Error loading key"%string
         (snd (initialize_keys Scenario.unprovisioned zero_keys)))
  /\ (Kattest (fst (initialize_keys Scenario.unprovisioned zero_keys)) = repeat x00 32
      /\ In "Error loading key"%string
            (snd (initialize_keys Scenario.unprovisioned zero_keys))).
Proof.
  pose proof (C7_key_load_failure_not_fatal Scenario.unprovisioned) as (Ha & Hb & _).
  split; [apply Ha|apply Hb]; reflexivity.
Defined.

(* ------------------------------------------------------------------ *)
(** ** The two programs run against each other *)

(** Fresh Verifier and Prover: the first request carries counter 1, the
    Prover accepts it and moves to 1, and the Verifier reads a report
    whose first byte is 1. *)
Example scenario_A :
  firstn 4 Scenario.request1 = uint32_bytes 1
  /\ Prover.round Scenario.keys (Scenario.prover_start Scenario.request1)
     = Ret tt {| Prover.C_P := 1; Prover.rx := []; Prover.tx := Scenario.report1 |}
  /\ Verifier.round Scenario.keys (Scenario.verifier_start Scenario.report1)
     = Ret true {| Verifier.C_V := 1; Verifier.rx := []; Verifier.tx := Scenario.request1;
                   Verifier.urandom := skipn 32 Scenario.random |}.
Proof. vm_compute. repeat split. Qed.

(** The same request sent twice: the second copy is turned down with 33
    zero bytes and the counter stays at 1. *)
Example scenario_B :
  iterate 2 (Prover.round Scenario.keys)
    (Scenario.prover_start (Scenario.request1 ++ Scenario.request1))
  = Ret tt {| Prover.C_P := 1; Prover.rx := [];
              Prover.tx := Scenario.report1 ++ repeat x00 33 |}.
Proof. vm_compute. reflexivity. Qed.

(** Two requests in a row, counters 1 and 2: both are accepted and the
    Prover ends at 2. *)
Example scenario_D :
  firstn 4 Scenario.request2 = uint32_bytes 2
  /\ iterate 2 (Prover.round Scenario.keys)
       (Scenario.prover_start (Scenario.request1 ++ Scenario.request2))
     = Ret tt {| Prover.C_P := 2; Prover.rx := [];
                 Prover.tx := Scenario.report1 ++ x01 :: skipn 68 Scenario.request2 |}.
Proof. vm_compute. repeat split. Qed.

(* ------------------------------------------------------------------ *)
(** ** Loading, handing out and printing the keys *)

(** X1. A key file of 32 bytes or more sets the key to its first 32 bytes;
    a shorter one overwrites only as many bytes as it has and the rest of
    the key stays as it was.  Neither case reports an error. *)
Theorem load_key_from_file_by_size
    (key : list byte) (fs : FileSystem) (filename : string) (contents : list byte) :
  List.length key = 32%nat ->
  fs filename = Some contents ->
  snd (load_key_from_file key fs filename) = []
  /\ List.length (fst (load_key_from_file key fs filename)) = 32%nat
  /\ ((32 <= List.length contents)%nat ->
      fst (load_key_from_file key fs filename) = firstn 32 contents)
  /\ ((List.length contents < 32)%nat ->
      fst (load_key_from_file key fs filename)
      = contents ++ skipn (List.length contents) key).
Proof.
  intros Hk Hfs. unfold load_key_from_file. rewrite Hfs. cbn [fst snd].
  split; [reflexivity|]. split; [|split].
  - rewrite fread_length; [exact Hk|]. rewrite Hk. reflexivity.
  - intro Hlong. unfold fread, Microvisor.KEY_SIZE.
    rewrite skipn_all2, app_nil_r; [reflexivity|].
    rewrite length_firstn. lia.
  - intro Hshort. unfold fread, Microvisor.KEY_SIZE.
    rewrite firstn_all2 by lia. reflexivity.
Qed.

Lemma load_key_from_file_by_size_witness :
  fst (load_key_from_file (repeat x00 32)
         (fun _ => Some [x01; x02; x03]) "kauth.key")
  = [x01; x02; x03] ++ skipn 3 (repeat x00 32).
Proof.
  apply (load_key_from_file_by_size (repeat x00 32)
           (fun _ => Some [x01; x02; x03]) "kauth.key" [x01; x02; x03]);
    try reflexivity.
  cbn. lia.
Defined.

(** X2. Whatever the key files hold, or if they are missing, both keys are
    32 bytes long after [initialize_keys], as they were before. *)
Theorem initialize_keys_keeps_key_sizes (fs : FileSystem) (k : Keys) :
  List.length (Kauth k) = 32%nat -> List.length (Kattest k) = 32%nat ->
  List.length (Kauth (fst (initialize_keys fs k))) = 32%nat
  /\ List.length (Kattest (fst (initialize_keys fs k))) = 32%nat.
Proof.
  intros Ha Hb. unfold initialize_keys, load_key_from_file.
  destruct (fs "kauth.key"%string) as [a|], (fs "kattest.key"%string) as [b|];
    cbn [fst Kauth Kattest]; split;
    try assumption; unfold Microvisor.KEY_SIZE;
    (rewrite fread_length; [assumption|lia]).
Qed.

Lemma initialize_keys_keeps_key_sizes_witness :
  List.length (Kauth (fst (initialize_keys
     (fun name => if String.eqb name "kauth.key" then Some [xff] else None) zero_keys)))
  = 32%nat
  /\ List.length (Kattest (fst (initialize_keys
     (fun name => if String.eqb name "kauth.key" then Some [xff] else None) zero_keys)))
     = 32%nat.
Proof.
  apply (initialize_keys_keeps_key_sizes
           (fun name => if String.eqb name "kauth.key" then Some [xff] else None)
           zero_keys); reflexivity.
Defined.

Lemma skipn_repeat_byte (b : byte) (n m : nat) :
  skipn n (repeat b m) = repeat b (m - n).
Proof.
  revert m. induction n as [|n IH]; intro m.
  - rewrite Nat.sub_0_r. reflexivity.
  - destruct m as [|m]; [reflexivity|]. cbn [repeat skipn Nat.sub]. apply IH.
Qed.

(** X3. At start-up a key file shorter than 32 bytes is taken without any
    error line: the key is the file's bytes followed by zeros. *)
Theorem short_key_file_is_zero_padded (fs : FileSystem) (contents : list byte) :
  fs "kauth.key"%string = Some contents ->
  (List.length contents < 32)%nat ->
  Kauth (fst (initialize_keys fs zero_keys))
  = contents ++ repeat x00 (32 - List.length contents)
  /\ (fs "kattest.key"%string <> None -> snd (initialize_keys fs zero_keys) = []).
Proof.
  intros Hfs Hshort. unfold initialize_keys, load_key_from_file. rewrite Hfs.
  destruct (fs "kattest.key"%string) as [b|]; cbn [fst snd Kauth Kattest zero_keys app];
    (split; [|intro H; try reflexivity; exfalso; apply H; reflexivity]);
    unfold fread, Microvisor.KEY_SIZE;
    rewrite firstn_all2 by lia; f_equal;
    apply skipn_repeat_byte.
Qed.

Lemma short_key_file_is_zero_padded_witness :
  Kauth (fst (initialize_keys
     (fun name => if String.eqb name "kauth.key" then Some [xff] else None) zero_keys))
  = [xff] ++ repeat x00 (32 - 1).
Proof.
  apply (short_key_file_is_zero_padded
           (fun name => if String.eqb name "kauth.key" then Some [xff] else None) [xff]).
  - reflexivity.
  - cbn. lia.
Defined.

(* ------------------------------------------------------------------ *)
(** ** [hex_dump] *)

Lemma hex_digit_hex_char (n : Z) :
  0 <= n < 16 -> hex_digit (MicrovisorLog.hex_char n) = n.
Proof.
  intro H.
  assert (Hall : forallb (fun i : nat =>
                            hex_digit (MicrovisorLog.hex_char (Z.of_nat i)) =? Z.of_nat i)
                   (seq 0 16) = true) by reflexivity.
  rewrite forallb_forall in Hall.
  specialize (Hall (Z.to_nat n)). rewrite Z2Nat.id in Hall by lia.
  apply Z.eqb_eq, Hall, in_seq. lia.
Qed.

Lemma string_length_append (a b : string) :
  String.length (a ++ b) = (String.length a + String.length b)%nat.
Proof.
  induction a as [|c a IH]; [reflexivity|]. cbn. rewrite IH. reflexivity.
Qed.

Lemma read_dump_body (data : list byte) :
  MicrovisorLog.read_dump
    (fold_right (fun (b : byte) (out : string) => (MicrovisorLog.printf_02X b ++ out)%string)
       MicrovisorLog.newline data) = data.
Proof.
  induction data as [|b data IH]; [reflexivity|].
  cbn [fold_right]. unfold MicrovisorLog.printf_02X at 1.
  cbn [append MicrovisorLog.read_dump]. rewrite IH. f_equal.
  pose proof (byte_to_Z_range b) as Hr.
  assert (Hhi : 0 <= byte_to_Z b / 16 < 16)
    by (split; [apply Z.div_pos; lia|apply Z.div_lt_upper_bound; lia]).
  assert (Hlo : 0 <= byte_to_Z b mod 16 < 16) by (apply Z.mod_pos_bound; lia).
  rewrite (hex_digit_hex_char _ Hhi), (hex_digit_hex_char _ Hlo).
  rewrite <- Z.div_mod by lia. apply byte_of_to_Z.
Qed.

Lemma dump_body_length (data : list byte) :
  String.length
    (fold_right (fun (b : byte) (out : string) => (MicrovisorLog.printf_02X b ++ out)%string)
       MicrovisorLog.newline data) = (3 * List.length data + 1)%nat.
Proof.
  induction data as [|b data IH]; [reflexivity|].
  cbn [fold_right List.length]. rewrite string_length_append, IH.
  unfold MicrovisorLog.printf_02X. cbn [String.length]. lia.
Qed.

(** X5. [hex_dump] prints the label, a colon and a space, then three
    characters per byte and an end of line; reading the part after the
    label back as hexadecimal gives exactly the [len] bytes dumped, so
    the dump determines them. *)
Theorem hex_dump_reads_back (label : string) (data : list byte) (len : nat) :
  (len <= List.length data)%nat ->
  exists body : string,
    MicrovisorLog.hex_dump label data len = ((label ++ ": ") ++ body)%string
    /\ MicrovisorLog.read_dump body = firstn len data
    /\ String.length body = (3 * len + 1)%nat
    /\ String.length (MicrovisorLog.hex_dump label data len)
       = (String.length label + 3 * len + 3)%nat.
Proof.
  intro Hlen. eexists. split; [reflexivity|].
  split; [apply read_dump_body|].
  assert (Hb : forall l : list byte, List.length l = len ->
           String.length
             (fold_right (fun (b : byte) (out : string) =>
                            (MicrovisorLog.printf_02X b ++ out)%string)
                MicrovisorLog.newline l) = (3 * len + 1)%nat).
  { intros l Hl. rewrite dump_body_length, Hl. reflexivity. }
  split.
  - apply Hb. rewrite length_firstn. lia.
  - unfold MicrovisorLog.hex_dump. rewrite !string_length_append, Hb
      by (rewrite length_firstn; lia).
    cbn [String.length]. lia.
Qed.

Lemma hex_dump_reads_back_witness :
  exists body : string,
    MicrovisorLog.hex_dump "k" [x0a; xff; x00] 2 = (("k" ++ ": ") ++ body)%string
    /\ MicrovisorLog.read_dump body = firstn 2 [x0a; xff; x00]
    /\ String.length body = (3 * 2 + 1)%nat
    /\ String.length (MicrovisorLog.hex_dump "k" [x0a; xff; x00] 2)
       = (String.length "k" + 3 * 2 + 3)%nat.
Proof.
  apply (hex_dump_reads_back "k" [x0a; xff; x00] 2). cbn. lia.
Defined.

Example hex_dump_sample :
  MicrovisorLog.hex_dump "k" [x0a; xff; x00] 2
  = ("k: 0A FF " ++ MicrovisorLog.newline)%string.
Proof. reflexivity. Qed.

(** X6. The two dumps that end [initialize_keys] put both keys on [stdout]
    in full: the text is the two labelled lines, and each line reads
    back to the 32 bytes of its key. *)
Theorem initialize_keys_prints_both_keys (k : Keys) :
  List.length (Kauth k) = 32%nat -> List.length (Kattest k) = 32%nat ->
  exists line1 line2 : string,
    MicrovisorLog.initialize_keys_stdout k
    = (("[MICROVISOR] Loaded Kauth: " ++ line1)
         ++ "[MICROVISOR] Loaded Kattest: " ++ line2)%string
    /\ MicrovisorLog.read_dump line1 = Kauth k
    /\ MicrovisorLog.read_dump line2 = Kattest k.
Proof.
  intros Ha Hb.
  exists (fold_right (fun (b : byte) (out : string) =>
                        (MicrovisorLog.printf_02X b ++ out)%string)
            MicrovisorLog.newline (Kauth k)),
         (fold_right (fun (b : byte) (out : string) =>
                        (MicrovisorLog.printf_02X b ++ out)%string)
            MicrovisorLog.newline (Kattest k)).
  split; [|split; apply read_dump_body].
  unfold MicrovisorLog.initialize_keys_stdout, MicrovisorLog.hex_dump,
    Microvisor.KEY_SIZE.
  rewrite !firstn_all2 by lia. reflexivity.
Qed.

Lemma initialize_keys_prints_both_keys_witness :
  exists line1 line2 : string,
    MicrovisorLog.initialize_keys_stdout Scenario.keys
    = (("[MICROVISOR] Loaded Kauth: " ++ line1)
         ++ "[MICROVISOR] Loaded Kattest: " ++ line2)%string
    /\ MicrovisorLog.read_dump line1 = Scenario.kauth_file
    /\ MicrovisorLog.read_dump line2 = Scenario.kattest_file.
Proof.
  apply (initialize_keys_prints_both_keys Scenario.keys); reflexivity.
Defined.

(* ------------------------------------------------------------------ *)
(** ** The Prover over many turns *)

Module ProverRun.
Import Prover.

Lemma skipn_request (cv vs nonce mac rest : list byte) :
  List.length cv = 4%nat -> List.length vs = 32%nat ->
  List.length nonce = 32%nat -> List.length mac = 32%nat ->
  skipn 100 (cv ++ vs ++ nonce ++ mac ++ rest) = rest.
Proof.
  intros Hc Hv Hn Hm.
  replace (cv ++ vs ++ nonce ++ mac ++ rest)
    with ((cv ++ vs ++ nonce ++ mac) ++ rest) by (rewrite <- !app_assoc; reflexivity).
  rewrite skipn_app, skipn_all2 by (rewrite !length_app; lia).
  rewrite !length_app, Hc, Hv, Hn, Hm. reflexivity.
Qed.

(** What every turn that finds a whole request has in common. *)
Lemma round_complete (k : Keys) (s : State) :
  (100 <= List.length (rx s))%nat ->
  exists s' : State,
    round k s = Ret tt s'
    /\ rx s' = skipn 100 (rx s)
    /\ C_P s <= C_P s'
    /\ (0 <= C_P s < 2^32 -> 0 <= C_P s' < 2^32)
    /\ (tx s' = tx s
        \/ tx s' = tx s ++ repeat x00 33
        \/ exists proof, List.length proof = 32%nat /\ C_P s < C_P s'
                         /\ tx s' = tx s ++ x01 :: proof).
Proof.
  intro Hlen.
  destruct (ProverFacts.request_fields _ Hlen)
    as (cv & vs & nonce & mac & rest & Hc & Hv & Hn & Hm & Hrx).
  rewrite (ProverFacts.round_full k s cv vs nonce mac rest) by assumption.
  cbv zeta. rewrite Hrx, skipn_request by assumption.
  pose proof (uint32_of_bytes_range cv) as Hrange.
  rewrite Z.geb_leb.
  destruct (Z.leb_spec (uint32_of_bytes cv) (C_P s)) as [Hle|Hlt].
  - eexists. split; [reflexivity|]. cbn [C_P rx tx].
    repeat split; try lia. right. left. reflexivity.
  - destruct (memcmp mac _ OUTPUT_SIZE =? 0).
    + eexists. split; [reflexivity|]. cbn [C_P rx tx].
      repeat split; try lia. right. right. eexists. split; [|split; [exact Hlt|reflexivity]].
      apply compute_prover_hmac_length, uninit_length.
    + eexists. split; [reflexivity|]. cbn [C_P rx tx].
      repeat split; try lia. left. reflexivity.
Qed.

(** [n] whole requests are consumed in [n] turns and the counter does
    not go down. *)
Lemma turns_consume (k : Keys) (n : nat) (s : State) :
  (100 * n <= List.length (rx s))%nat ->
  exists s' : State,
    iterate n (round k) s = Ret tt s'
    /\ rx s' = skipn (100 * n) (rx s)
    /\ C_P s <= C_P s'.
Proof.
  revert s. induction n as [|n IH]; intros s Hlen.
  - exists s. cbn [iterate Nat.mul skipn]. unfold ret. repeat split. lia.
  - cbn [iterate]. unfold bind.
    destruct (round_complete k s ltac:(lia)) as (s1 & Hr & Hrx & Hmono & _).
    rewrite Hr.
    destruct (IH s1 ltac:(rewrite Hrx, length_skipn; lia)) as (s' & Hit & Hrx' & Hcp).
    exists s'. split; [exact Hit|]. split; [|lia].
    rewrite Hrx', Hrx, skipn_skipn. f_equal. lia.
Qed.

(** The branch taken by a request whose counter is not above [C_P]. *)
Lemma round_stale (k : Keys) (s : State) (cv vs nonce mac rest : list byte) :
  List.length cv = 4%nat -> List.length vs = 32%nat ->
  List.length nonce = 32%nat -> List.length mac = 32%nat ->
  rx s = cv ++ vs ++ nonce ++ mac ++ rest ->
  uint32_of_bytes cv <= C_P s ->
  round k s = Ret tt {| C_P := C_P s; rx := rest; tx := tx s ++ repeat x00 33 |}.
Proof.
  intros Hc Hv Hn Hm Hrx Hstale.
  rewrite (ProverFacts.round_full k s cv vs nonce mac rest) by assumption.
  cbv zeta.
  replace (C_P s >=? uint32_of_bytes cv) with true
    by (symmetry; apply Z.geb_le; exact Hstale).
  reflexivity.
Qed.

End ProverRun.

(** X7. The Prover's loop stalls exactly when the line holds fewer than 100
    bytes per turn: [n] turns block if and only if fewer than [100 * n]
    bytes are there to be read. *)
Theorem prover_blocks_iff_line_runs_dry (k : Keys) (n : nat) (s : Prover.State) :
  blocked (iterate n (Prover.round k) s)
  = (List.length (Prover.rx s) <? 100 * n)%nat.
Proof.
  revert s. induction n as [|n IH]; intro s.
  - cbn [iterate]. unfold ret. cbn [blocked]. symmetry. apply Nat.ltb_ge. lia.
  - cbn [iterate]. unfold bind.
    destruct (Nat.lt_ge_cases (List.length (Prover.rx s)) 100) as [Hlt|Hge].
    + rewrite ProverFacts.round_starved by exact Hlt. cbn [blocked].
      symmetry. apply Nat.ltb_lt. lia.
    + destruct (ProverRun.round_complete k s Hge) as (s' & Hr & Hrx & _).
      rewrite Hr, IH, Hrx, length_skipn.
      destruct (Nat.ltb_spec (List.length (Prover.rx s) - 100) (100 * n));
        symmetry; [apply Nat.ltb_lt|apply Nat.ltb_ge]; lia.
Qed.

(** X8. [n] whole requests on the line are consumed in [n] turns, 100 bytes
    each.  What was written before stays in place, what is added is a
    whole number of 33-byte reports, at most one per turn, and the
    counter stays a 32-bit value that has not gone down. *)
Theorem prover_turns_keep_framing (k : Keys) (n : nat) (s : Prover.State) :
  (100 * n <= List.length (Prover.rx s))%nat ->
  0 <= Prover.C_P s < 2^32 ->
  exists (s' : Prover.State) (reports : nat),
    iterate n (Prover.round k) s = Ret tt s'
    /\ Prover.rx s' = skipn (100 * n) (Prover.rx s)
    /\ (reports <= n)%nat
    /\ firstn (List.length (Prover.tx s)) (Prover.tx s') = Prover.tx s
    /\ List.length (Prover.tx s') = (List.length (Prover.tx s) + 33 * reports)%nat
    /\ Prover.C_P s <= Prover.C_P s' < 2^32.
Proof.
  revert s. induction n as [|n IH]; intros s Hlen Hrange.
  - exists s, 0%nat. cbn [iterate]. unfold ret. cbn [skipn Nat.mul].
    repeat split; try lia. apply firstn_all.
  - cbn [iterate]. unfold bind.
    destruct (ProverRun.round_complete k s ltac:(lia)) as (s1 & Hr & Hrx & Hmono & Hrg & Htx).
    rewrite Hr.
    destruct (IH s1 ltac:(rewrite Hrx, length_skipn; lia) (Hrg Hrange))
      as (s' & m & Hit & Hrx' & Hm & Hpre & Hlen' & Hcp).
    assert (Hstep : exists r : nat,
               (r <= 1)%nat
               /\ List.length (Prover.tx s1) = (List.length (Prover.tx s) + 33 * r)%nat
               /\ firstn (List.length (Prover.tx s)) (Prover.tx s1) = Prover.tx s).
    { destruct Htx as [E|[E|(proof & Hp & _ & E)]]; rewrite E.
      - exists 0%nat. repeat split; try lia. apply firstn_all.
      - exists 1%nat. rewrite length_app, repeat_length.
        repeat split; try lia.
        rewrite firstn_app, Nat.sub_diag, firstn_all. cbn [firstn]. apply app_nil_r.
      - exists 1%nat. rewrite length_app. cbn [List.length]. rewrite Hp.
        repeat split; try lia.
        rewrite firstn_app, Nat.sub_diag, firstn_all. cbn [firstn]. apply app_nil_r. }
    destruct Hstep as (r & Hr1 & Hl1 & Hp1).
    exists s', (r + m)%nat. split; [exact Hit|].
    split; [rewrite Hrx', Hrx, skipn_skipn; f_equal; lia|].
    split; [lia|]. split; [|split; [lia|lia]].
    rewrite <- Hp1 at 2. rewrite <- Hpre.
    rewrite firstn_firstn. f_equal. lia.
Qed.

Lemma prover_turns_keep_framing_witness :
  exists (s' : Prover.State) (reports : nat),
    iterate 2 (Prover.round Scenario.keys)
      (Scenario.prover_start (Scenario.request1 ++ Scenario.tampered1)) = Ret tt s'
    /\ Prover.rx s' = skipn (100 * 2) (Scenario.request1 ++ Scenario.tampered1)
    /\ (reports <= 2)%nat
    /\ firstn (List.length (@nil byte)) (Prover.tx s') = []
    /\ List.length (Prover.tx s') = (List.length (@nil byte) + 33 * reports)%nat
    /\ 0 <= Prover.C_P s' < 2^32.
Proof.
  apply (prover_turns_keep_framing Scenario.keys 2
           (Scenario.prover_start (Scenario.request1 ++ Scenario.tampered1))).
  - vm_compute. lia.
  - vm_compute. split; congruence.
Defined.

(** X9. A Prover whose counter has reached 2^32 - 1 accepts nothing any
    more: every whole request, whatever it holds, is answered with 33
    zero bytes and the counter stays where it is. *)
Theorem prover_counter_exhausted (k : Keys) (n : nat) (s : Prover.State) :
  2^32 - 1 <= Prover.C_P s ->
  (100 * n <= List.length (Prover.rx s))%nat ->
  iterate n (Prover.round k) s
  = Ret tt {| Prover.C_P := Prover.C_P s;
              Prover.rx := skipn (100 * n) (Prover.rx s);
              Prover.tx := Prover.tx s ++ repeat x00 (33 * n) |}.
Proof.
  revert s. induction n as [|n IH]; intros s Hmax Hlen.
  - cbn [iterate Nat.mul skipn repeat]. unfold ret. rewrite app_nil_r.
    destruct s; reflexivity.
  - cbn [iterate]. unfold bind.
    destruct (ProverFacts.request_fields (Prover.rx s) ltac:(lia))
      as (cv & vs & nonce & mac & rest & Hc & Hv & Hn & Hm & Hrx).
    pose proof (uint32_of_bytes_range cv) as Hrange.
    rewrite (ProverRun.round_stale k s cv vs nonce mac rest) by (assumption || lia).
    rewrite IH; cbn [Prover.C_P Prover.rx Prover.tx].
    + f_equal. f_equal.
      * rewrite Hrx. replace (100 * S n)%nat with (100 * n + 100)%nat by lia.
        rewrite <- skipn_skipn, ProverRun.skipn_request by assumption. reflexivity.
      * rewrite <- app_assoc, <- repeat_app. f_equal. f_equal. lia.
    + exact Hmax.
    + rewrite Hrx in Hlen. rewrite !length_app in Hlen. lia.
Qed.

Lemma prover_counter_exhausted_witness :
  iterate 2 (Prover.round Scenario.keys)
    {| Prover.C_P := 2^32 - 1; Prover.rx := Scenario.request1 ++ Scenario.request2;
       Prover.tx := [] |}
  = Ret tt {| Prover.C_P := 2^32 - 1;
              Prover.rx := skipn (100 * 2) (Scenario.request1 ++ Scenario.request2);
              Prover.tx := [] ++ repeat x00 (33 * 2) |}.
Proof.
  apply (prover_counter_exhausted Scenario.keys 2
           {| Prover.C_P := 2^32 - 1; Prover.rx := Scenario.request1 ++ Scenario.request2;
              Prover.tx := [] |}).
  - cbn [Prover.C_P]. lia.
  - vm_compute. lia.
Defined.

(** X10. Replay.  Once a request has been accepted, the same 100 bytes are
    turned down with 33 zero bytes whenever they arrive again, however
    many turns and whatever other traffic lie in between. *)
Theorem accepted_request_is_never_accepted_again
    (k : Keys) (s : Prover.State) (cv vs nonce mac between rest : list byte) (n : nat) :
  List.length cv = 4%nat -> List.length vs = 32%nat ->
  List.length nonce = 32%nat -> List.length mac = 32%nat ->
  Prover.rx s = cv ++ vs ++ nonce ++ mac ++ between ++ cv ++ vs ++ nonce ++ mac ++ rest ->
  List.length between = (100 * n)%nat ->
  Prover.C_P s < uint32_of_bytes cv ->
  memcmp mac (Prover.compute_prover_hmac k (uint32_of_bytes cv) nonce
                (uninit Prover.OUTPUT_SIZE)) Prover.OUTPUT_SIZE = 0 ->
  exists before : Prover.State,
    iterate (1 + n) (Prover.round k) s = Ret tt before
    /\ Prover.rx before = cv ++ vs ++ nonce ++ mac ++ rest
    /\ uint32_of_bytes cv <= Prover.C_P before
    /\ Prover.round k before
       = Ret tt {| Prover.C_P := Prover.C_P before; Prover.rx := rest;
                   Prover.tx := Prover.tx before ++ repeat x00 33 |}.
Proof.
  intros Hc Hv Hn Hm Hrx Hbetween Hfresh Hok.
  cbn [Nat.add iterate]. unfold bind at 1.
  rewrite (ProverFacts.round_verified k s cv vs nonce mac
             (between ++ cv ++ vs ++ nonce ++ mac ++ rest)) by assumption.
  set (s1 := {| Prover.C_P := uint32_of_bytes cv;
                Prover.rx := between ++ cv ++ vs ++ nonce ++ mac ++ rest;
                Prover.tx := _ |}).
  destruct (ProverRun.turns_consume k n s1) as (s2 & Hit & Hrx2 & Hcp).
  { subst s1. cbn [Prover.rx]. rewrite length_app. lia. }
  exists s2. split; [exact Hit|].
  assert (Hrx2' : Prover.rx s2 = cv ++ vs ++ nonce ++ mac ++ rest).
  { rewrite Hrx2. subst s1. cbn [Prover.rx].
    rewrite skipn_app, skipn_all2, Hbetween, Nat.sub_diag by lia. reflexivity. }
  split; [exact Hrx2'|].
  assert (Hle : uint32_of_bytes cv <= Prover.C_P s2) by (subst s1; cbn [Prover.C_P] in Hcp; lia).
  split; [exact Hle|].
  apply (ProverRun.round_stale k s2 cv vs nonce mac rest); assumption.
Qed.

(** Scenario B with another exchange in between: [request1], then
    [request2], then [request1] again. *)
Lemma accepted_request_is_never_accepted_again_witness :
  exists before : Prover.State,
    iterate (1 + 1) (Prover.round Scenario.keys)
      (Scenario.prover_start (Scenario.request1 ++ Scenario.request2 ++ Scenario.request1))
    = Ret tt before
    /\ Prover.rx before = Scenario.request1
    /\ 1 <= Prover.C_P before
    /\ Prover.round Scenario.keys before
       = Ret tt {| Prover.C_P := Prover.C_P before; Prover.rx := [];
                   Prover.tx := Prover.tx before ++ repeat x00 33 |}.
Proof.
  apply (accepted_request_is_never_accepted_again Scenario.keys
           (Scenario.prover_start
              (Scenario.request1 ++ Scenario.request2 ++ Scenario.request1))
           (firstn 4 Scenario.request1) (firstn 32 (skipn 4 Scenario.request1))
           (firstn 32 (skipn 36 Scenario.request1)) (skipn 68 Scenario.request1)
           Scenario.request2 [] 1);
    vm_compute; reflexivity.
Defined.

(** X11. The counter and the flag go together: in a turn that finds a whole
    request, [C_P] changes if and only if the turn writes a report whose
    first byte is 1. *)
Theorem counter_moves_iff_flag_one (k : Keys) (s : Prover.State) :
  (100 <= List.length (Prover.rx s))%nat ->
  let s' := state_of (Prover.round k s) in
  Prover.C_P s' <> Prover.C_P s
  <-> exists proof, Prover.tx s' = Prover.tx s ++ x01 :: proof.
Proof.
  intros Hlen s'. subst s'.
  destruct (ProverFacts.request_fields _ Hlen)
    as (cv & vs & nonce & mac & rest & Hc & Hv & Hn & Hm & Hrx).
  rewrite (ProverFacts.round_full k s cv vs nonce mac rest) by assumption.
  cbv zeta. rewrite Z.geb_leb.
  destruct (Z.leb_spec (uint32_of_bytes cv) (Prover.C_P s)) as [Hle|Hlt];
    [|destruct (memcmp mac _ Prover.OUTPUT_SIZE =? 0)];
    cbn [state_of Prover.C_P Prover.tx].
  - split; [intro H; exfalso; apply H; reflexivity|].
    intros (proof & H). apply app_inv_head in H. discriminate H.
  - split; [intros _; eexists; reflexivity|intros _; lia].
  - split; [intro H; exfalso; apply H; reflexivity|].
    intros (proof & H). apply (f_equal (@List.length byte)) in H.
    rewrite length_app in H. cbn [List.length] in H. lia.
Qed.

Lemma counter_moves_iff_flag_one_witness :
  Prover.C_P (state_of (Prover.round Scenario.keys
                          (Scenario.prover_start Scenario.request1))) <> 0
  <-> exists proof,
        Prover.tx (state_of (Prover.round Scenario.keys
                               (Scenario.prover_start Scenario.request1)))
        = [] ++ x01 :: proof.
Proof.
  apply (counter_moves_iff_flag_one Scenario.keys
           (Scenario.prover_start Scenario.request1)).
  vm_compute. apply le_n.
Defined.

(* ------------------------------------------------------------------ *)
(** ** The Verifier over many turns *)

Module VerifierRun.
Import Verifier VerifierTurn.

Lemma request_of_ext (k : Keys) (s t : State) :
  counter_of s = counter_of t -> urandom s = urandom t ->
  request_of k s = request_of k t.
Proof.
  intros Hc Hu. unfold request_of, nonce_of. rewrite Hc, Hu. reflexivity.
Qed.

Lemma nth_request_0 (k : Keys) (v : State) :
  Line.nth_request k v 0 = request_of k v.
Proof.
  unfold Line.nth_request. apply request_of_ext.
  - unfold counter_of. cbn [C_V]. f_equal. lia.
  - reflexivity.
Qed.

Lemma nth_request_S (k : Keys) (v v1 : State) (i : nat) :
  C_V v1 = counter_of v -> urandom v1 = skipn 32 (urandom v) ->
  Line.nth_request k v1 i = Line.nth_request k v (S i).
Proof.
  intros Hc Hu. unfold Line.nth_request. apply request_of_ext.
  - unfold counter_of. cbn [C_V]. rewrite Hc. unfold counter_of.
    rewrite Nat2Z.inj_succ.
    rewrite <- Z.add_assoc, Zplus_mod_idemp_l. f_equal. lia.
  - cbn [urandom]. rewrite Hu, skipn_skipn. f_equal. lia.
Qed.

End VerifierRun.

(** X12. [n] turns of the Verifier that are all answered: the counter ends
    at start plus [n] modulo 2^32, so it comes back to every value after
    2^32 turns; 33 bytes are read and 32 random bytes used per turn; and
    what is written is the [n] requests one after the other, request [i]
    carrying the counter start plus [i] plus 1 modulo 2^32 and the [i]-th
    block of 32 random bytes. *)
Theorem verifier_answered_turns (k : Keys) (n : nat) (v : Verifier.State) :
  0 <= Verifier.C_V v < 2^32 ->
  (33 * n <= List.length (Verifier.rx v))%nat ->
  iterate n (Verifier.round k ;;; ret tt) v
  = Ret tt {| Verifier.C_V := (Verifier.C_V v + Z.of_nat n) mod 2^32;
              Verifier.rx := skipn (33 * n) (Verifier.rx v);
              Verifier.tx :=
                Verifier.tx v ++ List.concat (map (Line.nth_request k v) (seq 0 n));
              Verifier.urandom := skipn (32 * n) (Verifier.urandom v) |}.
Proof.
  revert v. induction n as [|n IH]; intros v Hrange Hlen.
  - cbn [iterate Nat.mul skipn seq map List.concat]. unfold ret.
    rewrite app_nil_r, Z.add_0_r, Z.mod_small by exact Hrange.
    destruct v; reflexivity.
  - cbn [iterate]. unfold bind at 1. unfold bind at 1.
    rewrite VerifierFacts.round_unfold.
    replace (33 <=? List.length (Verifier.rx v))%nat with true
      by (symmetry; apply Nat.leb_le; lia).
    unfold ret at 1.
    set (v1 := {| Verifier.C_V := VerifierTurn.counter_of v;
                  Verifier.rx := skipn 33 (Verifier.rx v);
                  Verifier.tx := Verifier.tx v ++ VerifierTurn.request_of k v;
                  Verifier.urandom := skipn Verifier.NONCE_SIZE (Verifier.urandom v) |}).
    assert (Hr1 : 0 <= Verifier.C_V v1 < 2^32)
      by (subst v1; cbn [Verifier.C_V]; apply Z.mod_pos_bound; lia).
    rewrite (IH v1 Hr1)
      by (subst v1; cbn [Verifier.rx]; rewrite length_skipn; lia).
    f_equal. subst v1. cbn [Verifier.C_V Verifier.rx Verifier.tx Verifier.urandom].
    f_equal.
    + unfold VerifierTurn.counter_of. rewrite Zplus_mod_idemp_l. f_equal. lia.
    + rewrite skipn_skipn. f_equal. lia.
    + rewrite <- app_assoc. f_equal.
      cbn [seq map List.concat]. rewrite VerifierRun.nth_request_0. f_equal. f_equal.
      rewrite <- seq_shift, map_map. apply map_ext. intro i.
      apply VerifierRun.nth_request_S; reflexivity.
    + unfold Verifier.NONCE_SIZE. rewrite skipn_skipn. f_equal. lia.
Qed.

Lemma verifier_answered_turns_witness :
  iterate 2 (Verifier.round Scenario.keys ;;; ret tt)
    (Scenario.verifier_start (Scenario.report1 ++ Scenario.report1))
  = Ret tt {| Verifier.C_V := (0 + Z.of_nat 2) mod 2^32;
              Verifier.rx := skipn (33 * 2) (Scenario.report1 ++ Scenario.report1);
              Verifier.tx :=
                [] ++ List.concat
                        (map (Line.nth_request Scenario.keys
                                (Scenario.verifier_start
                                   (Scenario.report1 ++ Scenario.report1)))
                             (seq 0 2));
              Verifier.urandom := skipn (32 * 2) Scenario.random |}.
Proof.
  apply (verifier_answered_turns Scenario.keys 2
           (Scenario.verifier_start (Scenario.report1 ++ Scenario.report1))).
  - cbn [Scenario.verifier_start Verifier.C_V]. lia.
  - vm_compute. lia.
Defined.

(** X13. The Verifier's loop stalls exactly when fewer than 33 bytes per turn
    come back: [n] turns block if and only if the line delivers fewer
    than [33 * n] bytes. *)
Theorem verifier_blocks_iff_unanswered (k : Keys) (n : nat) (v : Verifier.State) :
  blocked (iterate n (Verifier.round k ;;; ret tt) v)
  = (List.length (Verifier.rx v) <? 33 * n)%nat.
Proof.
  revert v. induction n as [|n IH]; intro v.
  - cbn [iterate]. unfold ret. cbn [blocked]. symmetry. apply Nat.ltb_ge. lia.
  - cbn [iterate]. unfold bind at 1. unfold bind at 1.
    rewrite VerifierFacts.round_unfold.
    destruct (Nat.leb_spec 33 (List.length (Verifier.rx v))) as [Hge|Hlt].
    + unfold ret at 1. rewrite IH. cbn [Verifier.rx]. rewrite length_skipn.
      destruct (Nat.ltb_spec (List.length (Verifier.rx v) - 33) (33 * n));
        symmetry; [apply Nat.ltb_lt|apply Nat.ltb_ge]; lia.
    + cbn [blocked]. symmetry. apply Nat.ltb_lt. lia.
Qed.

(** X14. A Verifier whose request is never answered has nevertheless moved
    its counter and used its nonce: the turn stalls with the request
    written, [C_V] stepped and 32 random bytes gone. *)
Theorem unanswered_turn_still_steps_counter (k : Keys) (v : Verifier.State) :
  (List.length (Verifier.rx v) < 33)%nat ->
  0 <= Verifier.C_V v < 2^32 - 1 ->
  exists v' : Verifier.State,
    Verifier.round k v = Block v'
    /\ Verifier.C_V v' = Verifier.C_V v + 1
    /\ Verifier.rx v' = []
    /\ List.length (Verifier.tx v') = (List.length (Verifier.tx v) + 100)%nat
    /\ Verifier.urandom v' = skipn 32 (Verifier.urandom v).
Proof.
  intros Hlen Hrange. rewrite VerifierFacts.round_unfold.
  replace (33 <=? List.length (Verifier.rx v))%nat with false
    by (symmetry; apply Nat.leb_gt; exact Hlen).
  eexists. split; [reflexivity|].
  cbn [Verifier.C_V Verifier.rx Verifier.tx Verifier.urandom].
  split; [unfold VerifierTurn.counter_of; apply Z.mod_small; lia|].
  split; [reflexivity|]. split; [|reflexivity].
  rewrite length_app, VerifierFacts.request_of_length. reflexivity.
Qed.

Lemma unanswered_turn_still_steps_counter_witness :
  exists v' : Verifier.State,
    Verifier.round Scenario.keys (Scenario.verifier_start [x01; x02]) = Block v'
    /\ Verifier.C_V v' = 0 + 1
    /\ Verifier.rx v' = []
    /\ List.length (Verifier.tx v') = (List.length (@nil byte) + 100)%nat
    /\ Verifier.urandom v' = skipn 32 Scenario.random.
Proof.
  apply (unanswered_turn_still_steps_counter Scenario.keys
           (Scenario.verifier_start [x01; x02])).
  - cbn. lia.
  - cbn [Scenario.verifier_start Verifier.C_V]. lia.
Defined.

(* ------------------------------------------------------------------ *)
(** ** Verifier and Prover on one line *)

Module LineFacts.

Import Line.

Lemma counter_of_round_trip (v : Verifier.State) :
  uint32_of_bytes (uint32_bytes (VerifierTurn.counter_of v)) = VerifierTurn.counter_of v.
Proof.
  rewrite <- (app_nil_r (uint32_bytes _)), uint32_of_bytes_bytes.
  unfold VerifierTurn.counter_of. apply Z.mod_mod. lia.
Qed.

Lemma skipn_length_app (a b : list byte) : skipn (List.length a) (a ++ b) = b.
Proof.
  rewrite skipn_app, Nat.sub_diag, skipn_all. reflexivity.
Qed.

(** With both directions of the line idle and the same keys on both
    sides, an exchange has one of two outcomes, decided by the counters
    alone. *)
Lemma exchange_idle (k : Keys) (v : Verifier.State) (p : Prover.State) :
  Verifier.rx v = [] -> Prover.rx p = [] ->
  Line.exchange k k v p =
    if Prover.C_P p >=? VerifierTurn.counter_of v then
      (Ret false (stepped k v),
       {| Prover.C_P := Prover.C_P p; Prover.rx := [];
          Prover.tx := Prover.tx p ++ repeat x00 33 |})
    else
      (Ret true (stepped k v),
       {| Prover.C_P := VerifierTurn.counter_of v; Prover.rx := [];
          Prover.tx :=
            Prover.tx p
              ++ x01 :: Prover.compute_prover_hmac k (VerifierTurn.counter_of v)
                          (VerifierTurn.nonce_of v) (uninit Prover.OUTPUT_SIZE) |}).
Proof.
  intros Hv Hp. unfold Line.exchange.
  assert (Hsent : skipn (List.length (Verifier.tx v))
                    (Verifier.tx (state_of (Verifier.round k v)))
                  = VerifierTurn.request_of k v).
  { rewrite VerifierFacts.round_unfold.
    destruct (33 <=? List.length (Verifier.rx v))%nat;
      cbn [state_of Verifier.tx]; apply skipn_length_app. }
  rewrite Hsent, Hp. cbn [app].
  set (p0 := {| Prover.C_P := Prover.C_P p;
                Prover.rx := VerifierTurn.request_of k v;
                Prover.tx := Prover.tx p |}).
  assert (Hround : Prover.round k p0 =
            if Prover.C_P p >=? VerifierTurn.counter_of v then
              Ret tt {| Prover.C_P := Prover.C_P p; Prover.rx := [];
                        Prover.tx := Prover.tx p ++ repeat x00 33 |}
            else
              Ret tt {| Prover.C_P := VerifierTurn.counter_of v; Prover.rx := [];
                        Prover.tx :=
                          Prover.tx p
                            ++ x01 :: Prover.compute_prover_hmac k
                                        (VerifierTurn.counter_of v)
                                        (VerifierTurn.nonce_of v)
                                        (uninit Prover.OUTPUT_SIZE) |}).
  { rewrite (ProverFacts.round_full k p0
               (uint32_bytes (VerifierTurn.counter_of v))
               (compute_valid_software_state k) (VerifierTurn.nonce_of v)
               (Verifier.compute_verifier_hmac k (VerifierTurn.counter_of v)
                  (VerifierTurn.nonce_of v) (uninit Verifier.OUTPUT_SIZE)) []
               (uint32_bytes_length _) (compute_valid_software_state_length k)
               (VerifierFacts.nonce_of_length v)
               (compute_verifier_hmac_length k _ _ _ (uninit_length _))).
    2:{ subst p0. cbn [Prover.rx]. unfold VerifierTurn.request_of.
        rewrite app_nil_r. reflexivity. }
    cbv zeta. rewrite counter_of_round_trip. subst p0. cbn [Prover.C_P Prover.tx].
    destruct (Prover.C_P p >=? VerifierTurn.counter_of v); [reflexivity|].
    replace (memcmp _ _ Prover.OUTPUT_SIZE) with 0; [reflexivity|].
    symmetry.
    change (Prover.compute_prover_hmac k (VerifierTurn.counter_of v)
              (VerifierTurn.nonce_of v) (uninit Prover.OUTPUT_SIZE))
      with (Verifier.compute_verifier_hmac k (VerifierTurn.counter_of v)
              (VerifierTurn.nonce_of v) (uninit Verifier.OUTPUT_SIZE)).
    apply memcmp_refl.
    rewrite compute_verifier_hmac_length by apply uninit_length.
    unfold Prover.OUTPUT_SIZE. lia. }
  rewrite Hround.
  assert (Hread : forall (flag : byte) (proof : list byte),
             List.length proof = 32%nat ->
             Verifier.round k {| Verifier.C_V := Verifier.C_V v;
                                 Verifier.rx := Verifier.rx v ++ flag :: proof;
                                 Verifier.tx := Verifier.tx v;
                                 Verifier.urandom := Verifier.urandom v |}
             = Ret (byte_to_Z flag =? 1) (stepped k v)).
  { intros flag proof Hlen. rewrite VerifierFacts.round_unfold, Hv.
    cbn [Verifier.rx Verifier.tx Verifier.urandom app].
    replace (33 <=? List.length (flag :: proof))%nat with true
      by (symmetry; apply Nat.leb_le; cbn [List.length]; lia).
    unfold stepped. f_equal.
    change (skipn 33 (flag :: proof)) with (skipn 32 proof).
    rewrite skipn_all2 by lia. reflexivity. }
  destruct (Prover.C_P p >=? VerifierTurn.counter_of v);
    cbn [state_of Prover.tx]; rewrite skipn_length_app.
  - change (repeat x00 33) with (x00 :: repeat x00 32) at 1.
    rewrite (Hread x00 (repeat x00 32)) by reflexivity. reflexivity.
  - rewrite Hread by (apply compute_prover_hmac_length, uninit_length). reflexivity.
Qed.

Lemma iter_stepped (k : Keys) (n : nat) (v : Verifier.State) :
  0 <= Verifier.C_V v -> Verifier.C_V v + Z.of_nat n < 2^32 ->
  Verifier.rx v = [] ->
  Verifier.C_V (Nat.iter n (stepped k) v) = Verifier.C_V v + Z.of_nat n
  /\ Verifier.rx (Nat.iter n (stepped k) v) = [].
Proof.
  induction n as [|n IH]; intros H0 Hmax Hrx.
  - cbn [Nat.iter nat_rect]. split; [lia|exact Hrx].
  - destruct (IH H0 ltac:(lia) Hrx) as [Hc _].
    rewrite Nat.iter_succ. cbn [stepped Verifier.C_V Verifier.rx].
    split; [|reflexivity].
    unfold VerifierTurn.counter_of. rewrite Hc. rewrite Z.mod_small by lia. lia.
Qed.

(** While the Verifier's next counter is not above the Prover's, the
    exchanges fail one after the other. *)
Lemma session_lagging (k : Keys) (n : nat) (v : Verifier.State) (p : Prover.State) :
  Verifier.rx v = [] -> Prover.rx p = [] ->
  0 <= Verifier.C_V v ->
  Verifier.C_V v + Z.of_nat n <= Prover.C_P p < 2^32 ->
  Line.session k k n v p
  = (repeat false n, Nat.iter n (stepped k) v,
     {| Prover.C_P := Prover.C_P p; Prover.rx := [];
        Prover.tx := Prover.tx p ++ repeat x00 (33 * n) |}).
Proof.
  revert v p. induction n as [|n IH]; intros v p Hv Hp Hcv Hlag.
  - cbn [Line.session repeat Nat.mul Nat.iter nat_rect]. rewrite app_nil_r.
    destruct p as [c r t]. cbn [Prover.rx] in Hp. subst r. reflexivity.
  - cbn [Line.session]. rewrite exchange_idle by assumption.
    assert (Hc : VerifierTurn.counter_of v = Verifier.C_V v + 1)
      by (unfold VerifierTurn.counter_of; apply Z.mod_small; lia).
    replace (Prover.C_P p >=? VerifierTurn.counter_of v) with true
      by (symmetry; apply Z.geb_le; lia).
    rewrite IH; try reflexivity.
    + cbn [repeat Prover.C_P Prover.tx].
      rewrite Nat.iter_succ_r.
      replace (33 * S n)%nat with (33 + 33 * n)%nat by lia.
      rewrite repeat_app, app_assoc. reflexivity.
    + cbn [stepped Verifier.C_V]. lia.
    + cbn [stepped Verifier.C_V Prover.C_P]. lia.
Qed.

Lemma session_app (kv kp : Keys) (n m : nat) (v : Verifier.State) (p : Prover.State) :
  forall oks v1 p1,
    Line.session kv kp n v p = (oks, v1, p1) ->
    List.length oks = n ->
    Line.session kv kp (n + m) v p
    = (let '(oks', v2, p2) := Line.session kv kp m v1 p1 in (oks ++ oks', v2, p2)).
Proof.
  revert v p. induction n as [|n IH]; intros v p oks v1 p1 Hs Hlen.
  - cbn [Line.session] in Hs. injection Hs as <- <- <-. cbn [Nat.add app].
    destruct (Line.session kv kp m v p) as [[a b] c]. reflexivity.
  - cbn [Nat.add Line.session] in *.
    destruct (Line.exchange kv kp v p) as [[ok v'|v'] p'].
    + destruct (Line.session kv kp n v' p') as [[oks0 v0] p0] eqn:E.
      injection Hs as <- <- <-. cbn [List.length] in Hlen.
      rewrite (IH v' p' oks0 v0 p0 E) by lia.
      destruct (Line.session kv kp m v0 p0) as [[a b] c]. reflexivity.
    + injection Hs as <- <- <-. discriminate Hlen.
Qed.

End LineFacts.

(** X15. An honest run.  With the same keys on both sides, an idle line and
    a Prover counter not above the Verifier's, [n] exchanges in a row all
    succeed as long as the Verifier's counter does not reach 2^32, and
    both counters end at the Verifier's start plus [n]. *)
Theorem honest_session_succeeds
    (k : Keys) (n : nat) (v : Verifier.State) (p : Prover.State) :
  Verifier.rx v = [] -> Prover.rx p = [] ->
  0 <= Prover.C_P p <= Verifier.C_V v ->
  Verifier.C_V v + Z.of_nat n < 2^32 ->
  exists (v' : Verifier.State) (p' : Prover.State),
    Line.session k k n v p = (repeat true n, v', p')
    /\ Verifier.C_V v' = Verifier.C_V v + Z.of_nat n
    /\ ((0 < n)%nat -> Prover.C_P p' = Verifier.C_V v + Z.of_nat n)
    /\ List.length (Verifier.tx v') = (List.length (Verifier.tx v) + 100 * n)%nat
    /\ List.length (Prover.tx p') = (List.length (Prover.tx p) + 33 * n)%nat.
Proof.
  revert v p. induction n as [|n IH]; intros v p Hv Hp Hcp Hmax.
  - exists v, p. cbn [Line.session repeat]. repeat split; try lia.
  - cbn [Line.session]. rewrite LineFacts.exchange_idle by assumption.
    assert (Hc : VerifierTurn.counter_of v = Verifier.C_V v + 1)
      by (unfold VerifierTurn.counter_of; apply Z.mod_small; lia).
    replace (Prover.C_P p >=? VerifierTurn.counter_of v) with false
      by (symmetry; rewrite Z.geb_leb; apply Z.leb_gt; lia).
    set (v1 := Line.stepped k v).
    set (p1 := {| Prover.C_P := VerifierTurn.counter_of v; Prover.rx := [];
                  Prover.tx := _ |}).
    destruct (IH v1 p1) as (v' & p' & Hs & Hcv & Hcp' & Hlv & Hlp);
      try reflexivity.
    { subst v1 p1. cbn [Prover.C_P Verifier.C_V Line.stepped]. lia. }
    { subst v1. cbn [Verifier.C_V Line.stepped]. lia. }
    exists v', p'. rewrite Hs. cbn [repeat]. split; [reflexivity|].
    subst v1 p1.
    cbn [Verifier.C_V Verifier.tx Prover.C_P Prover.tx Line.stepped] in *.
    rewrite length_app, VerifierFacts.request_of_length in Hlv.
    rewrite length_app in Hlp. cbn [List.length] in Hlp.
    rewrite compute_prover_hmac_length in Hlp by apply uninit_length.
    split; [lia|]. split; [|split; lia].
    intros _. destruct n as [|n].
    + cbn [Line.session repeat] in Hs. injection Hs as <- <-. cbn [Prover.C_P]. lia.
    + rewrite Hcp' by lia. lia.
Qed.

(** Scenario D as a session: two exchanges from a fresh start. *)
Lemma honest_session_succeeds_witness :
  exists (v' : Verifier.State) (p' : Prover.State),
    Line.session Scenario.keys Scenario.keys 2
      (Scenario.verifier_start []) (Scenario.prover_start [])
    = (repeat true 2, v', p')
    /\ Verifier.C_V v' = 0 + Z.of_nat 2
    /\ ((0 < 2)%nat -> Prover.C_P p' = 0 + Z.of_nat 2)
    /\ List.length (Verifier.tx v') = (List.length (@nil byte) + 100 * 2)%nat
    /\ List.length (Prover.tx p') = (List.length (@nil byte) + 33 * 2)%nat.
Proof.
  apply (honest_session_succeeds Scenario.keys 2
           (Scenario.verifier_start []) (Scenario.prover_start []));
    cbn [Scenario.verifier_start Scenario.prover_start Verifier.rx Prover.rx
         Verifier.C_V Prover.C_P]; try reflexivity; lia.
Defined.

(** X16. A Verifier that is behind.  While the Verifier's next counter is
    not above the Prover's, every exchange completes with a failure: the
    Prover answers 33 zero bytes and keeps its counter, the Verifier
    steps its own. *)
Theorem lagging_verifier_is_rejected
    (k : Keys) (n : nat) (v : Verifier.State) (p : Prover.State) :
  Verifier.rx v = [] -> Prover.rx p = [] ->
  0 <= Verifier.C_V v ->
  Verifier.C_V v + Z.of_nat n <= Prover.C_P p < 2^32 ->
  exists v' : Verifier.State,
    Line.session k k n v p
    = (repeat false n, v',
       {| Prover.C_P := Prover.C_P p; Prover.rx := [];
          Prover.tx := Prover.tx p ++ repeat x00 (33 * n) |})
    /\ Verifier.C_V v' = Verifier.C_V v + Z.of_nat n
    /\ Verifier.rx v' = [].
Proof.
  intros Hv Hp Hcv Hlag.
  exists (Nat.iter n (Line.stepped k) v).
  split; [apply LineFacts.session_lagging; assumption|].
  apply LineFacts.iter_stepped; try assumption. lia.
Qed.

Lemma lagging_verifier_is_rejected_witness :
  exists v' : Verifier.State,
    Line.session Scenario.keys Scenario.keys 2 (Scenario.verifier_start [])
      {| Prover.C_P := 5; Prover.rx := []; Prover.tx := [] |}
    = (repeat false 2, v',
       {| Prover.C_P := 5; Prover.rx := [];
          Prover.tx := [] ++ repeat x00 (33 * 2) |})
    /\ Verifier.C_V v' = 0 + Z.of_nat 2
    /\ Verifier.rx v' = [].
Proof.
  apply (lagging_verifier_is_rejected Scenario.keys 2 (Scenario.verifier_start [])
           {| Prover.C_P := 5; Prover.rx := []; Prover.tx := [] |});
    cbn [Scenario.verifier_start Verifier.rx Prover.rx Verifier.C_V Prover.C_P];
    try reflexivity; lia.
Defined.

(** X17. A Verifier that starts again.  The counters live in memory only, so
    a Verifier restarted at 0 facing a Prover that has reached [c] is
    turned down [c] times in a row; the exchange after that succeeds and
    both counters are [c + 1]. *)
Theorem restarted_verifier_catches_up
    (k : Keys) (v : Verifier.State) (p : Prover.State) :
  Verifier.rx v = [] -> Prover.rx p = [] ->
  Verifier.C_V v = 0 ->
  0 <= Prover.C_P p < 2^32 - 1 ->
  exists (v' : Verifier.State) (p' : Prover.State),
    Line.session k k (Z.to_nat (Prover.C_P p) + 1) v p
    = (repeat false (Z.to_nat (Prover.C_P p)) ++ [true], v', p')
    /\ Verifier.C_V v' = Prover.C_P p + 1
    /\ Prover.C_P p' = Prover.C_P p + 1.
Proof.
  intros Hv Hp Hzero Hrange.
  pose proof (LineFacts.session_lagging k (Z.to_nat (Prover.C_P p)) v p
                Hv Hp ltac:(lia) ltac:(lia)) as Hs.
  destruct (LineFacts.iter_stepped k (Z.to_nat (Prover.C_P p)) v
              ltac:(lia) ltac:(lia) Hv) as [Hcv Hrx].
  set (v1 := Nat.iter (Z.to_nat (Prover.C_P p)) (Line.stepped k) v) in *.
  rewrite (LineFacts.session_app k k _ 1 v p _ _ _ Hs) by apply repeat_length.
  cbn [Line.session].
  rewrite LineFacts.exchange_idle by (assumption || reflexivity).
  assert (Hc : VerifierTurn.counter_of v1 = Prover.C_P p + 1)
    by (unfold VerifierTurn.counter_of; rewrite Hcv, Hzero, Z2Nat.id by lia;
        apply Z.mod_small; lia).
  cbn [Prover.C_P].
  replace (Prover.C_P p >=? VerifierTurn.counter_of v1) with false
    by (symmetry; rewrite Z.geb_leb; apply Z.leb_gt; lia).
  eexists _, _. split; [reflexivity|].
  cbn [Line.stepped Verifier.C_V Prover.C_P]. split; exact Hc.
Qed.

Lemma restarted_verifier_catches_up_witness :
  exists (v' : Verifier.State) (p' : Prover.State),
    Line.session Scenario.keys Scenario.keys (Z.to_nat 2 + 1) (Scenario.verifier_start [])
      {| Prover.C_P := 2; Prover.rx := []; Prover.tx := [] |}
    = (repeat false (Z.to_nat 2) ++ [true], v', p')
    /\ Verifier.C_V v' = 2 + 1
    /\ Prover.C_P p' = 2 + 1.
Proof.
  apply (restarted_verifier_catches_up Scenario.keys (Scenario.verifier_start [])
           {| Prover.C_P := 2; Prover.rx := []; Prover.tx := [] |});
    cbn [Scenario.verifier_start Verifier.rx Prover.rx Verifier.C_V Prover.C_P];
    try reflexivity; lia.
Defined.

(** X18. After the wrap.  The exchange a Verifier at 2^32 - 1 starts carries
    counter 0, which no Prover with a counter of 0 or more accepts: the
    Verifier reads a failure and is left at 0, the Prover is unmoved. *)
Theorem wrapped_counter_is_rejected
    (k : Keys) (v : Verifier.State) (p : Prover.State) :
  Verifier.rx v = [] -> Prover.rx p = [] ->
  Verifier.C_V v = 2^32 - 1 ->
  0 <= Prover.C_P p ->
  exists v' : Verifier.State,
    Line.exchange k k v p
    = (Ret false v',
       {| Prover.C_P := Prover.C_P p; Prover.rx := [];
          Prover.tx := Prover.tx p ++ repeat x00 33 |})
    /\ Verifier.C_V v' = 0
    /\ firstn 4 (skipn (List.length (Verifier.tx v)) (Verifier.tx v'))
       = [x00; x00; x00; x00].
Proof.
  intros Hv Hp Hmax Hcp.
  rewrite LineFacts.exchange_idle by assumption.
  assert (Hc : VerifierTurn.counter_of v = 0)
    by (unfold VerifierTurn.counter_of; rewrite Hmax; reflexivity).
  replace (Prover.C_P p >=? VerifierTurn.counter_of v) with true
    by (symmetry; apply Z.geb_le; lia).
  eexists. split; [reflexivity|].
  cbn [Line.stepped Verifier.C_V Verifier.tx]. split; [exact Hc|].
  rewrite LineFacts.skipn_length_app. unfold VerifierTurn.request_of.
  rewrite Hc. reflexivity.
Qed.

Lemma wrapped_counter_is_rejected_witness :
  exists v' : Verifier.State,
    Line.exchange Scenario.keys Scenario.keys
      {| Verifier.C_V := 2^32 - 1; Verifier.rx := []; Verifier.tx := [];
         Verifier.urandom := Scenario.random |}
      (Scenario.prover_start [])
    = (Ret false v',
       {| Prover.C_P := 0; Prover.rx := []; Prover.tx := [] ++ repeat x00 33 |})
    /\ Verifier.C_V v' = 0
    /\ firstn 4 (skipn (List.length (@nil byte)) (Verifier.tx v')) = [x00; x00; x00; x00].
Proof.
  apply (wrapped_counter_is_rejected Scenario.keys
           {| Verifier.C_V := 2^32 - 1; Verifier.rx := []; Verifier.tx := [];
              Verifier.urandom := Scenario.random |}
           (Scenario.prover_start []));
    cbn [Scenario.prover_start Verifier.rx Prover.rx Verifier.C_V Prover.C_P];
    try reflexivity; lia.
Defined.

(* ------------------------------------------------------------------ *)
(** ** The fields of the requests of a run *)

(** X19. Request number [i] of a run, read field by field: 100 bytes; the
    counter field decodes to start plus [i] plus 1 modulo 2^32; the digest
    field is the software-state digest; the nonce field is block [i] of
    the random bytes; and the proof field is the HMAC under [Kauth] of the
    68 bytes before it. *)
Theorem request_fields_of_turn (k : Keys) (v : Verifier.State) (i : nat) :
  List.length (Kauth k) = 32%nat ->
  (32 * (i + 1) <= List.length (Verifier.urandom v))%nat ->
  let r := Line.nth_request k v i in
  List.length r = 100%nat
  /\ uint32_of_bytes (firstn 4 r) = (Verifier.C_V v + Z.of_nat i + 1) mod 2^32
  /\ firstn 32 (skipn 4 r) = compute_valid_software_state k
  /\ firstn 32 (skipn 36 r) = firstn 32 (skipn (32 * i) (Verifier.urandom v))
  /\ skipn 68 r = SHA256.HMAC (Kauth k) (firstn 68 r).
Proof.
  intros Hk Hrand r. subst r. unfold Line.nth_request.
  set (s := {| Verifier.C_V := Verifier.C_V v + Z.of_nat i; Verifier.rx := [];
               Verifier.tx := [];
               Verifier.urandom := skipn (32 * i) (Verifier.urandom v) |}).
  split; [apply VerifierFacts.request_of_length|].
  unfold VerifierTurn.request_of.
  pose proof (compute_valid_software_state_length k) as Hv.
  pose proof (VerifierFacts.nonce_of_length s) as Hn.
  pose proof (compute_verifier_hmac_length k (VerifierTurn.counter_of s)
                (VerifierTurn.nonce_of s) (uninit Verifier.OUTPUT_SIZE)
                (uninit_length _)) as Hh.
  set (c := VerifierTurn.counter_of s) in *.
  set (d := compute_valid_software_state k) in *.
  set (nonce := VerifierTurn.nonce_of s) in *.
  set (h := Verifier.compute_verifier_hmac k c nonce (uninit Verifier.OUTPUT_SIZE)) in *.
  assert (Hnonce : nonce = firstn 32 (skipn (32 * i) (Verifier.urandom v))).
  { subst nonce s. unfold VerifierTurn.nonce_of, fread, Verifier.NONCE_SIZE.
    cbn [Verifier.urandom]. cbv zeta.
    set (got := firstn 32 (skipn (32 * i) (Verifier.urandom v))).
    assert (Hg : List.length got = 32%nat)
      by (subst got; rewrite length_firstn, length_skipn; lia).
    rewrite Hg. change (skipn 32 (uninit 32)) with (@nil byte). apply app_nil_r. }
  split; [|split; [|split]].
  - change (firstn 4 (uint32_bytes c ++ d ++ nonce ++ h)) with (uint32_bytes c).
    rewrite <- (app_nil_r (uint32_bytes c)), uint32_of_bytes_bytes.
    subst c s. unfold VerifierTurn.counter_of. cbn [Verifier.C_V].
    apply Z.mod_mod. lia.
  - change (skipn 4 (uint32_bytes c ++ d ++ nonce ++ h)) with (d ++ nonce ++ h).
    rewrite firstn_app, firstn_all2, Hv by lia. cbn [Nat.sub firstn]. apply app_nil_r.
  - rewrite <- Hnonce.
    replace (uint32_bytes c ++ d ++ nonce ++ h)
      with ((uint32_bytes c ++ d) ++ nonce ++ h) by (rewrite <- app_assoc; reflexivity).
    rewrite skipn_app, skipn_all2 by (rewrite length_app, Hv; cbn; lia).
    rewrite length_app, Hv. cbn [List.length uint32_bytes Nat.add Nat.sub skipn app].
    rewrite firstn_app, firstn_all2, Hn by lia. cbn [Nat.sub firstn]. apply app_nil_r.
  - replace (uint32_bytes c ++ d ++ nonce ++ h)
      with ((uint32_bytes c ++ d ++ nonce) ++ h) by (rewrite <- !app_assoc; reflexivity).
    assert (Hbody : List.length (uint32_bytes c ++ d ++ nonce) = 68%nat)
      by (rewrite !length_app, Hv, Hn; reflexivity).
    rewrite skipn_app, firstn_app, Hbody, Nat.sub_diag.
    rewrite skipn_all2, firstn_all2 by lia.
    cbn [skipn firstn app]. rewrite app_nil_r.
    subst h. rewrite <- prover_verifier_hmac_agree.
    apply compute_prover_hmac_layout; [exact Hn|apply uninit_length|exact Hk].
Qed.

Lemma request_fields_of_turn_witness :
  let r := Line.nth_request Scenario.keys (Scenario.verifier_start []) 1 in
  List.length r = 100%nat
  /\ uint32_of_bytes (firstn 4 r) = (0 + Z.of_nat 1 + 1) mod 2^32
  /\ firstn 32 (skipn 4 r) = compute_valid_software_state Scenario.keys
  /\ firstn 32 (skipn 36 r) = firstn 32 (skipn (32 * 1) Scenario.random)
  /\ skipn 68 r = SHA256.HMAC (Kauth Scenario.keys) (firstn 68 r).
Proof.
  apply (request_fields_of_turn Scenario.keys (Scenario.verifier_start []) 1).
  - reflexivity.
  - vm_compute. lia.
Defined.

(* ------------------------------------------------------------------ *)
(** ** The counter on the line and the two UART helpers *)

(** X20. The four counter bytes and the counter determine each other: a
    32-bit counter written and read back is itself, four bytes read and
    written back are themselves, so two different byte groups never
    stand for the same counter. *)
Theorem counter_field_round_trip :
  (forall c : Z, 0 <= c < 2^32 -> uint32_of_bytes (uint32_bytes c) = c)
  /\ (forall bs : list byte,
         List.length bs = 4%nat ->
         uint32_bytes (uint32_of_bytes bs) = bs /\ 0 <= uint32_of_bytes bs < 2^32)
  /\ (forall a b : list byte,
         List.length a = 4%nat -> List.length b = 4%nat ->
         uint32_of_bytes a = uint32_of_bytes b -> a = b).
Proof.
  split; [|split].
  - intros c Hc. rewrite <- (app_nil_r (uint32_bytes c)), uint32_of_bytes_bytes.
    apply Z.mod_small. exact Hc.
  - intros bs Hbs. split; [apply uint32_bytes_of_bytes; exact Hbs|].
    apply uint32_of_bytes_range.
  - intros a b Ha Hb Heq.
    rewrite <- (uint32_bytes_of_bytes a Ha), <- (uint32_bytes_of_bytes b Hb), Heq.
    reflexivity.
Qed.

Lemma counter_field_round_trip_witness :
  uint32_of_bytes (uint32_bytes 16909060) = 16909060
  /\ uint32_bytes (uint32_of_bytes [x04; x03; x02; x01]) = [x04; x03; x02; x01].
Proof.
  pose proof counter_field_round_trip as (Henc & Hdec & _).
  split.
  - apply Henc. lia.
  - apply (Hdec [x04; x03; x02; x01]). reflexivity.
Defined.

Lemma firstn_plus (n m : nat) (l : list byte) :
  firstn (n + m) l = firstn n l ++ firstn m (skipn n l).
Proof.
  revert l. induction n as [|n IH]; intro l; [reflexivity|].
  destruct l as [|x l]; [destruct m; reflexivity|].
  cbn [Nat.add firstn skipn app]. rewrite IH. reflexivity.
Qed.

(** X21. Reads and writes compose.  A read with enough bytes on the line
    returns exactly the next [n] of them and leaves the rest; with fewer
    it stalls and the line is empty.  Two reads in a row do in every case
    what one read of the total does, the two results being its result cut
    in two.  A write appends its buffer to what was written, and two
    writes in a row do what one write of both buffers does.  Reads never
    touch what was written, writes never touch what is to be read, and
    neither touches the counter. *)
Theorem uart_reads_and_writes_compose (s : Prover.State) (n m : nat) (a b : list byte) :
  ((n <= List.length (Prover.rx s))%nat ->
   Prover.safe_uart_read n s
   = Ret (firstn n (Prover.rx s))
         {| Prover.C_P := Prover.C_P s; Prover.rx := skipn n (Prover.rx s);
            Prover.tx := Prover.tx s |})
  /\ ((List.length (Prover.rx s) < n)%nat ->
      Prover.safe_uart_read n s
      = Block {| Prover.C_P := Prover.C_P s; Prover.rx := [];
                 Prover.tx := Prover.tx s |})
  /\ (x <- Prover.safe_uart_read n ;; y <- Prover.safe_uart_read m ;; ret (x ++ y)) s
     = Prover.safe_uart_read (n + m) s
  /\ ((n + m <= List.length (Prover.rx s))%nat ->
      (x <- Prover.safe_uart_read n ;; y <- Prover.safe_uart_read m ;; ret (x, y)) s
      = Ret (firstn n (Prover.rx s), firstn m (skipn n (Prover.rx s)))
            {| Prover.C_P := Prover.C_P s; Prover.rx := skipn (n + m) (Prover.rx s);
               Prover.tx := Prover.tx s |})
  /\ Prover.safe_uart_write a (List.length a) s
     = Ret tt {| Prover.C_P := Prover.C_P s; Prover.rx := Prover.rx s;
                 Prover.tx := Prover.tx s ++ a |}
  /\ (Prover.safe_uart_write a (List.length a) ;;;
      Prover.safe_uart_write b (List.length b)) s
     = Ret tt {| Prover.C_P := Prover.C_P s; Prover.rx := Prover.rx s;
                 Prover.tx := Prover.tx s ++ a ++ b |}
  /\ (Prover.safe_uart_write a (List.length a) ;;;
      Prover.safe_uart_write b (List.length b)) s
     = Prover.safe_uart_write (a ++ b) (List.length (a ++ b)) s.
Proof.
  assert (Hread : (n <= List.length (Prover.rx s))%nat ->
            Prover.safe_uart_read n s
            = Ret (firstn n (Prover.rx s))
                  {| Prover.C_P := Prover.C_P s; Prover.rx := skipn n (Prover.rx s);
                     Prover.tx := Prover.tx s |}).
  { intro Hn. unfold Prover.safe_uart_read.
    replace (n <=? List.length (Prover.rx s))%nat with true
      by (symmetry; apply Nat.leb_le; exact Hn).
    reflexivity. }
  assert (Hwrite : forall (t : Prover.State) (c : list byte),
            Prover.safe_uart_write c (List.length c) t
            = Ret tt {| Prover.C_P := Prover.C_P t; Prover.rx := Prover.rx t;
                        Prover.tx := Prover.tx t ++ c |}).
  { intros t c. unfold Prover.safe_uart_write, modify. rewrite firstn_all. reflexivity. }
  split; [exact Hread|]. split; [apply ProverFacts.safe_uart_read_starved|].
  split; [|split; [|split; [apply Hwrite|split]]].
  - unfold bind, ret.
    destruct (Nat.le_gt_cases n (List.length (Prover.rx s))) as [Hn|Hn].
    + rewrite (Hread Hn).
      unfold Prover.safe_uart_read. cbn [Prover.C_P Prover.rx Prover.tx].
      rewrite length_skipn.
      destruct (Nat.leb_spec m (List.length (Prover.rx s) - n)) as [Hm|Hm].
      * replace (n + m <=? List.length (Prover.rx s))%nat with true
          by (symmetry; apply Nat.leb_le; lia).
        rewrite skipn_skipn, (Nat.add_comm m n), firstn_plus. reflexivity.
      * replace (n + m <=? List.length (Prover.rx s))%nat with false
          by (symmetry; apply Nat.leb_gt; lia).
        reflexivity.
    + rewrite (ProverFacts.safe_uart_read_starved n s Hn).
      rewrite (ProverFacts.safe_uart_read_starved (n + m) s) by lia. reflexivity.
  - intro Hlen. unfold bind, ret. rewrite Hread by lia.
    unfold Prover.safe_uart_read. cbn [Prover.C_P Prover.rx Prover.tx].
    replace (m <=? List.length (skipn n (Prover.rx s)))%nat with true
      by (symmetry; apply Nat.leb_le; rewrite length_skipn; lia).
    rewrite skipn_skipn, (Nat.add_comm m n). reflexivity.
  - unfold bind. rewrite !Hwrite. cbn [Prover.C_P Prover.rx Prover.tx].
    rewrite app_assoc. reflexivity.
  - unfold bind. rewrite !Hwrite. cbn [Prover.C_P Prover.rx Prover.tx].
    rewrite app_assoc. reflexivity.
Qed.

(** The first two fields of [request1], read one after the other and
    read at once; and a read of 101 bytes, which stalls. *)
Lemma uart_reads_and_writes_compose_witness :
  (x <- Prover.safe_uart_read 4 ;; y <- Prover.safe_uart_read 32 ;; ret (x, y))
    (Scenario.prover_start Scenario.request1)
  = Ret (firstn 4 Scenario.request1, firstn 32 (skipn 4 Scenario.request1))
        {| Prover.C_P := 0; Prover.rx := skipn (4 + 32) Scenario.request1;
           Prover.tx := [] |}
  /\ Prover.safe_uart_read 101 (Scenario.prover_start Scenario.request1)
     = Block {| Prover.C_P := 0; Prover.rx := []; Prover.tx := [] |}.
Proof.
  split.
  - refine (proj1 (proj2 (proj2 (proj2
      (uart_reads_and_writes_compose (Scenario.prover_start Scenario.request1)
         4 32 [] [])))) _).
    vm_compute. lia.
  - refine (proj1 (proj2
      (uart_reads_and_writes_compose (Scenario.prover_start Scenario.request1)
         101 0 [] [])) _).
    vm_compute. lia.
Defined.

(* ------------------------------------------------------------------ *)
(** ** Restarts and mismatched keys *)

(** X22. The counter does not outlive the process.  A request that some
    Prover state with a counter of 0 or more has accepted is accepted
    once more by a Prover that is started afresh with the same key
    files: [main] begins at [C_P] = 0, below every accepted counter. *)
Theorem restarted_prover_accepts_replay
    (fs : FileSystem) (s : Prover.State) (cv vs nonce mac rest : list byte) :
  let k := fst (initialize_keys fs zero_keys) in
  List.length cv = 4%nat -> List.length vs = 32%nat ->
  List.length nonce = 32%nat -> List.length mac = 32%nat ->
  Prover.rx s = cv ++ vs ++ nonce ++ mac ++ rest ->
  0 <= Prover.C_P s ->
  Prover.round k s
  = Ret tt {| Prover.C_P := uint32_of_bytes cv; Prover.rx := rest;
              Prover.tx := Prover.tx s ++ x01 :: mac |} ->
  Prover.main fs (Some (cv ++ vs ++ nonce ++ mac)) 1
  = Prover.Looping
      (Ret tt {| Prover.C_P := uint32_of_bytes cv; Prover.rx := [];
                 Prover.tx := x01 :: mac |})
      (snd (initialize_keys fs zero_keys)).
Proof.
  intros k Hc Hv Hn Hm Hrx Hcp Hacc.
  rewrite (ProverFacts.round_full k s cv vs nonce mac rest) in Hacc by assumption.
  cbv zeta in Hacc. rewrite Z.geb_leb in Hacc.
  destruct (Z.leb_spec (uint32_of_bytes cv) (Prover.C_P s)) as [Hle|Hlt].
  { injection Hacc as _ Hsent. apply app_inv_head in Hsent. discriminate Hsent. }
  destruct (memcmp mac _ Prover.OUTPUT_SIZE =? 0) eqn:Hcmp.
  2:{ injection Hacc as _ Hsent. apply (f_equal (@List.length byte)) in Hsent.
      rewrite length_app in Hsent. cbn [List.length] in Hsent. lia. }
  injection Hacc as Hsent. apply app_inv_head in Hsent. injection Hsent as Hmac.
  unfold Prover.main. subst k.
  destruct (initialize_keys fs zero_keys) as [k err]. cbn [fst snd] in *.
  f_equal. cbn [iterate]. unfold bind.
  rewrite (ProverFacts.round_verified k _ cv vs nonce mac []);
    try assumption.
  - cbn [Prover.tx app]. unfold ret. rewrite Hmac. reflexivity.
  - cbn [Prover.rx]. rewrite app_nil_r. reflexivity.
  - cbn [Prover.C_P]. lia.
  - apply Z.eqb_eq. exact Hcmp.
Qed.

(** [request1], accepted in scenario A, put before a Prover that has
    just been started. *)
Lemma restarted_prover_accepts_replay_witness :
  Prover.main Scenario.provisioned (Some Scenario.request1) 1
  = Prover.Looping
      (Ret tt {| Prover.C_P := 1; Prover.rx := [];
                 Prover.tx := x01 :: skipn 68 Scenario.request1 |})
      [].
Proof.
  apply (restarted_prover_accepts_replay Scenario.provisioned
           {| Prover.C_P := 0; Prover.rx := Scenario.request1; Prover.tx := [] |}
           (firstn 4 Scenario.request1) (firstn 32 (skipn 4 Scenario.request1))
           (firstn 32 (skipn 36 Scenario.request1)) (skipn 68 Scenario.request1) []);
    try (vm_compute; reflexivity).
  cbn [Prover.C_P]. lia.
Defined.

(** X23. Keys that differ.  When the proof the Verifier computes is not the
    one the Prover expects, a request with a fresh counter gets no
    answer at all: the Prover writes nothing and keeps its counter, the
    Verifier has stepped its counter and waits for ever, and no further
    exchange takes place. *)
Theorem mismatched_proof_stalls_the_line
    (kv kp : Keys) (v : Verifier.State) (p : Prover.State) (n : nat) :
  Verifier.rx v = [] -> Prover.rx p = [] ->
  Prover.C_P p < VerifierTurn.counter_of v ->
  memcmp (Verifier.compute_verifier_hmac kv (VerifierTurn.counter_of v)
            (VerifierTurn.nonce_of v) (uninit Verifier.OUTPUT_SIZE))
         (Prover.compute_prover_hmac kp (VerifierTurn.counter_of v)
            (VerifierTurn.nonce_of v) (uninit Prover.OUTPUT_SIZE))
         Prover.OUTPUT_SIZE <> 0 ->
  exists v' : Verifier.State,
    Line.exchange kv kp v p = (Block v', p)
    /\ Verifier.C_V v' = VerifierTurn.counter_of v
    /\ Verifier.tx v' = Verifier.tx v ++ VerifierTurn.request_of kv v
    /\ Line.session kv kp (S n) v p = ([], v', p).
Proof.
  intros Hv Hp Hfresh Hbad.
  assert (Hex : Line.exchange kv kp v p
                = (Block {| Verifier.C_V := VerifierTurn.counter_of v; Verifier.rx := [];
                            Verifier.tx := Verifier.tx v ++ VerifierTurn.request_of kv v;
                            Verifier.urandom :=
                              skipn Verifier.NONCE_SIZE (Verifier.urandom v) |}, p)).
  { unfold Line.exchange.
    assert (Hsent : skipn (List.length (Verifier.tx v))
                      (Verifier.tx (state_of (Verifier.round kv v)))
                    = VerifierTurn.request_of kv v).
    { rewrite VerifierFacts.round_unfold.
      destruct (33 <=? List.length (Verifier.rx v))%nat;
        cbn [state_of Verifier.tx]; apply LineFacts.skipn_length_app. }
    rewrite Hsent, Hp. cbn [app].
    rewrite (ProverFacts.round_mismatch kp _
               (uint32_bytes (VerifierTurn.counter_of v))
               (compute_valid_software_state kv) (VerifierTurn.nonce_of v)
               (Verifier.compute_verifier_hmac kv (VerifierTurn.counter_of v)
                  (VerifierTurn.nonce_of v) (uninit Verifier.OUTPUT_SIZE)) []
               (uint32_bytes_length _) (compute_valid_software_state_length kv)
               (VerifierFacts.nonce_of_length v)
               (compute_verifier_hmac_length kv _ _ _ (uninit_length _))).
    - cbn [state_of Prover.tx Prover.C_P Prover.rx].
      rewrite skipn_all, app_nil_r.
      rewrite VerifierFacts.round_unfold, Hv. cbn [List.length Nat.leb].
      f_equal. destruct p as [c r t]. cbn [Prover.rx] in Hp. subst r. reflexivity.
    - cbn [Prover.rx]. unfold VerifierTurn.request_of. rewrite app_nil_r. reflexivity.
    - cbn [Prover.C_P]. rewrite LineFacts.counter_of_round_trip. exact Hfresh.
    - rewrite LineFacts.counter_of_round_trip. exact Hbad. }
  eexists. split; [exact Hex|]. split; [reflexivity|]. split; [reflexivity|].
  cbn [Line.session]. rewrite Hex. reflexivity.
Qed.

(** A Verifier started without key files against a Prover that has
    them. *)
Lemma mismatched_proof_stalls_the_line_witness :
  exists v' : Verifier.State,
    Line.exchange zero_keys Scenario.keys
      (Scenario.verifier_start []) (Scenario.prover_start [])
    = (Block v', Scenario.prover_start [])
    /\ Verifier.C_V v' = VerifierTurn.counter_of (Scenario.verifier_start [])
    /\ Verifier.tx v'
       = [] ++ VerifierTurn.request_of zero_keys (Scenario.verifier_start [])
    /\ Line.session zero_keys Scenario.keys 3
         (Scenario.verifier_start []) (Scenario.prover_start [])
       = ([], v', Scenario.prover_start []).
Proof.
  apply (mismatched_proof_stalls_the_line zero_keys Scenario.keys
           (Scenario.verifier_start []) (Scenario.prover_start []) 2);
    try reflexivity.
  vm_compute. discriminate.
Defined.

(* ------------------------------------------------------------------ *)
(** ** What the comparison of the two proofs decides *)

(** X24. For a request with a fresh counter, [memcmp] over the 32 bytes
    is 0 exactly when the received proof equals the expected one byte for
    byte, and the turn accepts the request (adopts the counter and
    answers with flag 1 and that proof) exactly then. *)
Theorem proof_accepted_iff_all_bytes_equal
    (k : Keys) (s : Prover.State) (cv vs nonce mac rest : list byte) :
  List.length cv = 4%nat -> List.length vs = 32%nat ->
  List.length nonce = 32%nat -> List.length mac = 32%nat ->
  Prover.rx s = cv ++ vs ++ nonce ++ mac ++ rest ->
  Prover.C_P s < uint32_of_bytes cv ->
  let expected :=
    Prover.compute_prover_hmac k (uint32_of_bytes cv) nonce (uninit Prover.OUTPUT_SIZE) in
  (memcmp mac expected Prover.OUTPUT_SIZE = 0 <-> mac = expected)
  /\ (Prover.round k s
      = Ret tt {| Prover.C_P := uint32_of_bytes cv; Prover.rx := rest;
                  Prover.tx := Prover.tx s ++ x01 :: mac |}
      <-> mac = expected).
Proof.
  intros Hc Hv Hn Hm Hrx Hfresh expected.
  assert (He : List.length expected = 32%nat)
    by (apply compute_prover_hmac_length, uninit_length).
  assert (Hiff : memcmp mac expected Prover.OUTPUT_SIZE = 0 <-> mac = expected)
    by (apply memcmp_zero_iff; assumption).
  split; [exact Hiff|]. split.
  - intro Hround.
    rewrite (ProverFacts.round_full k s cv vs nonce mac rest) in Hround by assumption.
    cbv zeta in Hround. fold expected in Hround.
    replace (Prover.C_P s >=? uint32_of_bytes cv) with false in Hround
      by (symmetry; rewrite Z.geb_leb; apply Z.leb_gt; exact Hfresh).
    destruct (memcmp mac expected Prover.OUTPUT_SIZE =? 0) eqn:E.
    + apply Hiff, Z.eqb_eq, E.
    + injection Hround as Hcp _. lia.
  - intro Heq.
    rewrite (ProverFacts.round_verified k s cv vs nonce mac rest)
      by (assumption || (apply Hiff; exact Heq)).
    fold expected. rewrite <- Heq. reflexivity.
Qed.

(** [request1] carries the expected proof and is accepted; [tampered1]
    does not, and is not. *)
Lemma proof_accepted_iff_all_bytes_equal_witness :
  Prover.round Scenario.keys (Scenario.prover_start Scenario.request1)
  = Ret tt {| Prover.C_P := 1; Prover.rx := [];
              Prover.tx := [] ++ x01 :: skipn 68 Scenario.request1 |}
  /\ memcmp (skipn 68 Scenario.tampered1)
       (Prover.compute_prover_hmac Scenario.keys 1
          (firstn 32 (skipn 36 Scenario.tampered1)) (uninit Prover.OUTPUT_SIZE))
       Prover.OUTPUT_SIZE <> 0.
Proof.
  split.
  - refine (proj2 (proj2
      (proof_accepted_iff_all_bytes_equal Scenario.keys
         (Scenario.prover_start Scenario.request1)
         (firstn 4 Scenario.request1) (firstn 32 (skipn 4 Scenario.request1))
         (firstn 32 (skipn 36 Scenario.request1)) (skipn 68 Scenario.request1) []
         _ _ _ _ _ _)) _); vm_compute; reflexivity.
  - intro H0.
    refine (_ (proj1 (proj1
      (proof_accepted_iff_all_bytes_equal Scenario.keys
         (Scenario.prover_start Scenario.tampered1)
         (firstn 4 Scenario.tampered1) (firstn 32 (skipn 4 Scenario.tampered1))
         (firstn 32 (skipn 36 Scenario.tampered1)) (skipn 68 Scenario.tampered1) []
         _ _ _ _ _ _)) H0)); try (vm_compute; reflexivity).
    vm_compute. discriminate.
Defined.
